(** * Real-time session and delivery subsystem of the chat server

    A shallow embedding of [src/server.js]: the socket handlers
    ([authenticate], [send-message], [disconnect]), the REST handlers that
    write to the store (register, login, send) and the [SIGINT] handler.

    Every handler is an [async] function; it is embedded as a computation in
    a state-and-exception monad over the [World] (the two store collections,
    the in-memory [connectedUsers] map, the per-socket fields and the trace
    of effects).  What the collaborators answer during one run of a handler
    (token verification, clock readings, store failures, identifier casting,
    password hashing) is supplied by an [Env].  One run of a handler is one
    transition: interleavings of two handlers at their [await] points are
    outside this model.  The [typing] and [stop-typing] relays and the
    read-only REST routes store nothing and are left out. *)

From Stdlib Require Import ZArith NArith List String Ascii Bool Lia.
From stdpp Require Import gmap strings list fin_maps sorting.

Local Open Scope Z_scope.
Local Open Scope list_scope.

(** ** JavaScript strings and values *)

(** A JavaScript string is its sequence of UTF-16 code units; [length] is
    the [.length] of the source. *)
Abbreviation JsString := (list N).

Definition str (s : string) : JsString :=
  List.map N_of_ascii (list_ascii_of_string s).

(** ECMAScript [WhiteSpace] and [LineTerminator] code units, the ones
    [String.prototype.trim] strips. *)
Definition js_whitespace (c : N) : bool :=
  ((9 <=? c) && (c <=? 13) || (c =? 32) || (c =? 160) || (c =? 5760)
   || (8192 <=? c) && (c <=? 8202) || (c =? 8232) || (c =? 8233)
   || (c =? 8239) || (c =? 8287) || (c =? 12288) || (c =? 65279))%N.

Fixpoint trim_start (s : JsString) : JsString :=
  match s with
  | c :: s' => if js_whitespace c then trim_start s' else s
  | [] => []
  end.

Definition trim_end (s : JsString) : JsString :=
  rev (trim_start (rev s)).

(** [s.trim()] *)
Definition trim (s : JsString) : JsString := trim_end (trim_start s).

(** A value found in a field of an event payload or of a request body.
    Besides [undefined], [null] and strings, the handlers only ever ask of a
    value whether it is truthy and what it converts to inside a template
    literal, so every other value (boolean, number, array, object) is
    [JOther] with these two answers.  No such value has a callable [trim].
    [JNoString] is an object that does not convert to a string: neither its
    [toString] nor its [valueOf] gives a primitive (as the JSON object with
    the one property toString: 1), so the conversion throws. *)
Inductive JsVal :=
| JUndefined
| JNull
| JStr (s : JsString)
| JOther (truthy : bool) (repr : JsString)
| JNoString.

(** [!!v] *)
Definition js_truthy (v : JsVal) : bool :=
  match v with
  | JUndefined | JNull => false
  | JStr s => negb (bool_decide (s = []))
  | JOther t _ => t
  | JNoString => true
  end.

(** [`${v}`]; [None] when the conversion throws a [TypeError]. *)
Definition js_to_string (v : JsVal) : option JsString :=
  match v with
  | JUndefined => Some (str "undefined")
  | JNull => Some (str "null")
  | JStr s => Some s
  | JOther _ r => Some r
  | JNoString => None
  end.

(** [v !== 'text'] *)
Definition js_strict_neq_text (v : JsVal) : bool :=
  match v with
  | JStr s => negb (bool_decide (s = str "text"))
  | _ => true
  end.

(** The argument of a socket event.  [const { receiverId, content,
    messageType } = data] throws on [undefined] and [null] ([PNullish]); on
    any other value it reads the three properties, [undefined] when missing
    (a primitive argument is a [PFields] with three [JUndefined]). *)
Inductive Payload :=
| PNullish
| PFields (receiverId content messageType : JsVal).

(** ** Documents *)

Abbreviation SocketId := string.

(** [userSchema] *)
Record User := mkUser {
  username : JsString;
  email : JsString;
  password : JsString;
  isOnline : bool;
  lastSeen : Z
}.

Global Instance User_eq_dec : EqDecision User.
Proof. solve_decision. Defined.

(** [messageSchema]; [sender] and [receiver] hold the ObjectId as its
    string. *)
Record Message := mkMessage {
  msg_id : JsString;
  sender : JsString;
  receiver : JsString;
  content : JsString;
  messageType : JsString;
  delivered : bool;
  read : bool;
  createdAt : Z;
  updatedAt : Z
}.

(** [new Message(messageData)] before [save()]: casting of [sender] and
    [receiver] to ObjectId has happened, a failed cast ([None]) is reported
    by validation at [save()]. *)
Record MessageDraft := mkDraft {
  d_id : JsString;
  d_sender : option JsString;
  d_receiver : option JsString;
  d_content : JsString;
  d_messageType : JsString
}.

(** A message after [populate('sender', 'username')] and
    [populate('receiver', 'username')]: the referenced user's name, [None]
    ([null]) when no such user is stored. *)
Record Populated := mkPopulated {
  p_message : Message;
  p_sender : option JsString;
  p_receiver : option JsString
}.

(** Value of a [connectedUsers] entry. *)
Record ConnEntry := mkConn {
  socketId : SocketId;
  conn_username : JsString
}.

(** The fields the handlers keep on a [socket] object and the rooms it
    joined. *)
Record Socket := mkSocket {
  userId : option JsString;
  sock_username : option JsString;
  rooms : list JsString
}.

Definition new_socket : Socket := mkSocket None None [].

(** ** Effects *)

(** Events sent to clients. *)
Inductive Event :=
| authenticated (id name mail : JsString)
| authentication_error (reason : string)
| error (reason : string)
| receive_message (m : Populated)
| message_sent (m : Populated)
| user_online (id name : JsString)
| user_offline (id : JsString) (name : option JsString).

(** What a handler does to the outside, in the order it does it. *)
Inductive Effect :=
| SocketEmit (to : SocketId) (ev : Event)          (* socket.emit *)
| RoomEmit (room : JsString) (ev : Event)          (* io.to(room).emit *)
| BroadcastEmit (from : SocketId) (ev : Event)     (* socket.broadcast.emit *)
| WriteUser (id : JsString) (u : User)             (* users collection write *)
| WriteMessage (m : Message)                       (* messages collection write *)
| HttpReply (status : nat) (body : string)         (* res.status(..).json(..) *)
| HttpReplyMessage (status : nat) (m : Populated)
| CloseStore                                       (* mongoose.connection.close() *)
| ProcessExit (code : Z).                          (* process.exit *)

(** ** The world *)

Record World := mkWorld {
  Users : gmap JsString User;
  Messages : list Message;
  connectedUsers : list (JsString * ConnEntry);
  sockets : gmap SocketId Socket;
  log : list Effect
}.

(** Exceptions a handler can see. *)
Inductive Exn :=
| TypeError
| TokenExpiredError
| JsonWebTokenError
| ValidationError
| MongoError.

(** Store calls that can fail on their own (I/O). *)
Inductive StoreOp :=
| OpFindById (id : JsString)
| OpFindOne
| OpSaveUser (id : JsString)
| OpUpdateUser (id : JsString)
| OpSaveMessage
| OpPopulateSender
| OpPopulateReceiver
| OpClose.

(** [jwt.verify(token, JWT_SECRET)]: the decoded [userId] or the error
    thrown. *)
Inductive JwtResult :=
| JwtDecoded (uid : JsString)
| JwtThrows (e : Exn).

(** What the collaborators answer during one run of a handler. *)
Record Env := mkEnv {
  Date_now : nat -> Z;                       (* the n-th clock reading *)
  new_ObjectId : JsString;                   (* _id of a new document *)
  jwt_verify : JsString -> JwtResult;
  jwt_sign : JsString -> JsString;
  store_fails : StoreOp -> bool;
  castObjectId : JsVal -> option JsString;   (* mongoose ObjectId cast *)
  findOne : option JsString;                 (* _id matched by User.findOne *)
  bcrypt_hash : JsString -> JsString;
  bcrypt_compare : JsString -> JsString -> bool;
  toLowerCase : JsString -> JsString         (* String.prototype.toLowerCase *)
}.

(** ** The handler monad *)

Inductive Result (A : Type) :=
| Ok (a : A)
| Throw (e : Exn).
Arguments Ok {A} a.
Arguments Throw {A} e.

Definition M (A : Type) : Type := World -> Result A * World.

Definition ret {A} (a : A) : M A := fun w => (Ok a, w).

Definition bind {A B} (m : M A) (k : A -> M B) : M B :=
  fun w => match m w with
           | (Ok a, w') => k a w'
           | (Throw e, w') => (Throw e, w')
           end.

Definition throw {A} (e : Exn) : M A := fun w => (Throw e, w).

(** [try { body } catch (error) { handler }] *)
Definition try_catch {A} (body : M A) (handler : Exn -> M A) : M A :=
  fun w => match body w with
           | (Ok a, w') => (Ok a, w')
           | (Throw e, w') => handler e w'
           end.

Declare Scope handler_scope.
Delimit Scope handler_scope with handler.
Notation "'let!' x := c 'in' k" := (bind c (fun x => k))
  (at level 10, x name, c at level 100, k at level 200) : handler_scope.
Notation "c ;;; k" := (bind c (fun _ => k))
  (at level 100, k at level 200, right associativity) : handler_scope.
Local Open Scope handler_scope.

Definition get_world : M World := fun w => (Ok w, w).

Definition effect (e : Effect) : M unit :=
  fun w => (Ok tt, mkWorld (Users w) (Messages w) (connectedUsers w)
                           (sockets w) (log w ++ [e])).

Definition set_Users (f : gmap JsString User -> gmap JsString User) : M unit :=
  fun w => (Ok tt, mkWorld (f (Users w)) (Messages w) (connectedUsers w)
                           (sockets w) (log w)).

Definition set_Messages (f : list Message -> list Message) : M unit :=
  fun w => (Ok tt, mkWorld (Users w) (f (Messages w)) (connectedUsers w)
                           (sockets w) (log w)).

Definition set_connectedUsers
    (f : list (JsString * ConnEntry) -> list (JsString * ConnEntry)) : M unit :=
  fun w => (Ok tt, mkWorld (Users w) (Messages w) (f (connectedUsers w))
                           (sockets w) (log w)).

Definition set_sockets (f : gmap SocketId Socket -> gmap SocketId Socket) : M unit :=
  fun w => (Ok tt, mkWorld (Users w) (Messages w) (connectedUsers w)
                           (f (sockets w)) (log w)).

(** ** The JavaScript [Map] behind [connectedUsers]

    Entries are kept in insertion order; [set] on a present key replaces the
    value in place, which is the order [for ... of] visits them in. *)

Fixpoint Map_get {V} (k : JsString) (m : list (JsString * V)) : option V :=
  match m with
  | [] => None
  | (k', v) :: m' => if decide (k = k') then Some v else Map_get k m'
  end.

Fixpoint Map_set {V} (k : JsString) (v : V) (m : list (JsString * V))
  : list (JsString * V) :=
  match m with
  | [] => [(k, v)]
  | (k', v') :: m' =>
      if decide (k = k') then (k, v) :: m' else (k', v') :: Map_set k v m'
  end.

Fixpoint Map_delete {V} (k : JsString) (m : list (JsString * V))
  : list (JsString * V) :=
  match m with
  | [] => []
  | (k', v') :: m' =>
      if decide (k = k') then m' else (k', v') :: Map_delete k m'
  end.

Definition Map_keys {V} (m : list (JsString * V)) : list JsString := m.*1.

(** ** Socket operations *)

Definition the_socket (sid : SocketId) (w : World) : Socket :=
  default new_socket (sockets w !! sid).

Definition get_socket (sid : SocketId) : M Socket :=
  fun w => (Ok (the_socket sid w), w).

Definition update_socket (sid : SocketId) (f : Socket -> Socket) : M unit :=
  fun w => set_sockets (fun ss => <[sid := f (the_socket sid w)]> ss) w.

(** [socket.userId = id; socket.username = name] *)
Definition socket_identify (sid : SocketId) (id name : JsString) : M unit :=
  update_socket sid (fun s => mkSocket (Some id) (Some name) (rooms s)).

(** [socket.join(room)] *)
Definition socket_join (sid : SocketId) (room : JsString) : M unit :=
  update_socket sid (fun s =>
    mkSocket (userId s) (sock_username s)
             (if decide (room ∈ rooms s) then rooms s else rooms s ++ [room])).

Definition socket_emit (sid : SocketId) (ev : Event) : M unit :=
  effect (SocketEmit sid ev).

Definition io_to_emit (room : JsString) (ev : Event) : M unit :=
  effect (RoomEmit room ev).

Definition socket_broadcast_emit (sid : SocketId) (ev : Event) : M unit :=
  effect (BroadcastEmit sid ev).

(** The room [`user_${v}`] names, for a [v] that converts to a string. *)
Definition user_room (v : JsVal) : JsString :=
  str "user_" ++ default [] (js_to_string v).

(** [`user_${v}`] as a handler evaluates it: the room name, or the
    [TypeError] of the conversion. *)
Definition room_of (v : JsVal) : M JsString :=
  match js_to_string v with
  | Some _ => ret (user_room v)
  | None => throw TypeError
  end.

(** [if (socket.userId)]: the identifier when it is set and truthy. *)
Definition socket_userId (s : Socket) : option JsString :=
  match userId s with
  | Some id => if js_truthy (JStr id) then Some id else None
  | None => None
  end.

(** ** Store operations *)

Section Handlers.

Variable env : Env.

Definition store_call {A} (op : StoreOp) (m : M A) : M A :=
  if store_fails env op then throw MongoError else m.

(** [User.findById(id)] *)
Definition User_findById (id : JsString) : M (option User) :=
  store_call (OpFindById id) (fun w => (Ok (Users w !! id), w)).

(** [User.findOne(query)]: the store picks the matching document. *)
Definition User_findOne : M (option (JsString * User)) :=
  store_call OpFindOne (fun w =>
    (Ok (match findOne env with
         | Some id => (fun u => (id, u)) <$> Users w !! id
         | None => None
         end), w)).

(** [user.save()] on the document [loaded] from the store under [id], after
    the handler changed it into [u].  The call goes to the store and can
    fail there whether or not a field was changed; the document is written,
    [WriteUser id u], only when one was: when none was, mongoose sends no
    update, it only looks the document up again. *)
Definition User_save (id : JsString) (loaded u : User) : M unit :=
  store_call (OpSaveUser id)
    (set_Users (fun us => <[id := u]> us) ;;;
     if decide (u = loaded) then ret tt else effect (WriteUser id u)).

Definition with_presence (u : User) (online : bool) (seen : Z) : User :=
  mkUser (username u) (email u) (password u) online seen.

(** [User.findByIdAndUpdate(id, { isOnline, lastSeen })]: no document, no
    write. *)
Definition User_findByIdAndUpdate (id : JsString) (online : bool) (seen : Z)
  : M unit :=
  store_call (OpUpdateUser id) (fun w =>
    match Users w !! id with
    | Some u =>
        (set_Users (fun us => <[id := with_presence u online seen]> us) ;;;
         effect (WriteUser id (with_presence u online seen))) w
    | None => (Ok tt, w)
    end).

(** [new Message({ sender, receiver, content, messageType: 'text' })];
    [sender] is an identifier the server issued, [receiver] comes from the
    client and is cast. *)
Definition new_Message (senderId : JsString) (receiverId : JsVal)
    (text : JsString) : MessageDraft :=
  mkDraft (new_ObjectId env) (Some senderId) (castObjectId env receiverId)
          text (str "text").

(** Validation by [messageSchema]: [sender], [receiver], [content] required,
    [content] at most 1000 code units, [messageType] in the enum. *)
Definition Message_validate (d : MessageDraft) : option Message :=
  match d_sender d, d_receiver d with
  | Some s, Some r =>
      if bool_decide (d_content d = [])
         || (1000 <? length (d_content d))%nat
         || negb (bool_decide (d_messageType d = str "text"))
      then None
      else Some (mkMessage (d_id d) s r (d_content d) (d_messageType d)
                           false false (Date_now env 0) (Date_now env 0))
  | _, _ => None
  end.

(** [message.save()]; [timestamps: true] stamps [createdAt] here. *)
Definition Message_save (d : MessageDraft) : M Message :=
  match Message_validate d with
  | None => throw ValidationError
  | Some m =>
      store_call OpSaveMessage
        (set_Messages (fun ms => ms ++ [m]) ;;;
         effect (WriteMessage m) ;;;
         ret m)
  end.

(** [message.populate(path, 'username')] *)
Definition populate (op : StoreOp) (id : JsString) : M (option JsString) :=
  store_call op (fun w => (Ok (username <$> Users w !! id), w)).

(** [content.trim()]: a [TypeError] unless [content] is a string. *)
Definition js_trim (v : JsVal) : M JsString :=
  match v with
  | JStr s => ret (trim s)
  | _ => throw TypeError
  end.

(** [jwt.verify(token, JWT_SECRET)] *)
Definition jwt_verify_call (token : JsString) : M JsString :=
  match jwt_verify env token with
  | JwtDecoded uid => ret uid
  | JwtThrows e => throw e
  end.

(** ** Socket handlers *)

(** [socket.on('authenticate', async (token) => ...)]; [user._id.toString()]
    is the identifier the document was found under. *)
Definition on_authenticate (sid : SocketId) (token : JsString) : M unit :=
  try_catch
    (let! decoded := jwt_verify_call token in
     let! user := User_findById decoded in
     match user with
     | Some u =>
         socket_identify sid decoded (username u) ;;;
         socket_join sid (user_room (JStr decoded)) ;;;
         User_save decoded u (with_presence u true (Date_now env 0)) ;;;
         set_connectedUsers (Map_set decoded (mkConn sid (username u))) ;;;
         socket_emit sid (authenticated decoded (username u) (email u)) ;;;
         socket_broadcast_emit sid (user_online decoded (username u))
     | None =>
         socket_emit sid (authentication_error "User not found")
     end)
    (fun _ => socket_emit sid (authentication_error "Invalid token")).

(** The part of the send handlers after validation: persist, populate, and
    hand the populated message to [fanout]. *)
Definition persist_and_populate (senderId : JsString) (receiverId : JsVal)
    (text : JsString) : M Populated :=
  let! m := Message_save (new_Message senderId receiverId text) in
  let! s := populate OpPopulateSender (sender m) in
  let! r := populate OpPopulateReceiver (receiver m) in
  ret (mkPopulated m s r).

(** [socket.on('send-message', async (data) => ...)] *)
Definition on_send_message (sid : SocketId) (data : Payload) : M unit :=
  try_catch
    (let! socket := get_socket sid in
     match socket_userId socket with
     | None => socket_emit sid (error "Not authenticated")
     | Some uid =>
         match data with
         | PNullish => throw TypeError
         | PFields receiverId content messageType0 =>
             let messageType :=
               match messageType0 with
               | JUndefined => JStr (str "text")
               | v => v
               end in
             if negb (js_truthy receiverId) || negb (js_truthy content)
             then socket_emit sid (error "Invalid message data")
             else
               let! trimmed := js_trim content in
               if negb (js_truthy (JStr trimmed))
               then socket_emit sid (error "Invalid message data")
               else if js_strict_neq_text messageType
               then socket_emit sid (error "Only text messages allowed")
               else
                 let! message := persist_and_populate uid receiverId trimmed in
                 let! room := room_of receiverId in
                 io_to_emit room (receive_message message) ;;;
                 socket_emit sid (message_sent message)
         end
     end)
    (fun _ => socket_emit sid (error "Failed to send message")).

(** [socket.on('disconnect', async () => ...)] *)
Definition on_disconnect (sid : SocketId) : M unit :=
  let! socket := get_socket sid in
  match socket_userId socket with
  | Some uid =>
      try_catch
        (let! user := User_findById uid in
         match user with
         | Some u => User_save uid u (with_presence u false (Date_now env 0))
         | None => ret tt
         end ;;;
         set_connectedUsers (Map_delete uid) ;;;
         socket_broadcast_emit sid (user_offline uid (sock_username socket)))
        (fun _ => ret tt)
  | None => ret tt
  end.

(** ** Shutdown *)

(** The body of [for (const [userId] of connectedUsers)]; [i] counts the
    clock readings taken so far. *)
Fixpoint sweep (i : nat) (entries : list (JsString * ConnEntry)) : M unit :=
  match entries with
  | [] => ret tt
  | (uid, _) :: rest =>
      try_catch (User_findByIdAndUpdate uid false (Date_now env i))
                (fun _ => ret tt) ;;;
      sweep (S i) rest
  end.

(** [process.on('SIGINT', async () => ...)] *)
Definition on_SIGINT : M unit :=
  let! w := get_world in
  sweep 0 (connectedUsers w) ;;;
  store_call OpClose (effect CloseStore) ;;;
  effect (ProcessExit 0).

(** ** REST handlers that write *)

Definition reply (status : nat) (body : string) : M unit :=
  effect (HttpReply status body).

(** [s.split(sep)] for a one-unit separator; [cur] is the segment being
    read, reversed. *)
Fixpoint split_on (sep : N) (s cur : JsString) : list JsString :=
  match s with
  | [] => [rev cur]
  | c :: s' =>
      if (c =? sep)%N then rev cur :: split_on sep s' []
      else split_on sep s' (c :: cur)
  end.

(** [authenticateToken]: [next] runs with [req.user.userId]. *)
Definition authenticateToken (authorization : option JsString)
    (next : JsString -> M unit) : M unit :=
  match authorization with
  | None => reply 401 "Access token required"
  | Some authHeader =>
      match split_on 32 authHeader [] !! 1%nat with
      | Some token =>
          if js_truthy (JStr token)
          then match jwt_verify env token with
               | JwtDecoded uid => next uid
               | JwtThrows _ => reply 403 "Invalid token"
               end
          else reply 401 "Access token required"
      | None => reply 401 "Access token required"
      end
  end.

(** [app.post('/api/auth/register', ...)]; the [trim] and [lowercase]
    setters of [userSchema] are applied to what is stored. *)
Definition post_register (name mail pass : JsString) : M unit :=
  try_catch
    (if negb (js_truthy (JStr name)) || negb (js_truthy (JStr mail))
        || negb (js_truthy (JStr pass))
     then reply 400 "All fields are required"
     else if (length pass <? 6)%nat
     then reply 400 "Password must be at least 6 characters"
     else if (length name <? 3)%nat || (20 <? length name)%nat
     then reply 400 "Username must be 3-20 characters"
     else
       let! existingUser := User_findOne in
       match existingUser with
       | Some _ => reply 400 "User already exists"
       | None =>
           let user := mkUser (trim name) (toLowerCase env (trim mail))
                              (bcrypt_hash env pass) false (Date_now env 0) in
           let! w := get_world in
           if (length (username user) <? 3)%nat
              || (20 <? length (username user))%nat
              || bool_decide (email user = [])
              || (length (password user) <? 6)%nat
           then throw ValidationError
           else if bool_decide (is_Some (Users w !! new_ObjectId env))
           then throw MongoError
           else
             store_call (OpSaveUser (new_ObjectId env))
               (set_Users (fun us => <[new_ObjectId env := user]> us) ;;;
                effect (WriteUser (new_ObjectId env) user)) ;;;
             reply 201 "Account created successfully"
       end)
    (fun _ => reply 500 "Server error").

(** [app.post('/api/auth/login', ...)] *)
Definition post_login (name pass : JsString) : M unit :=
  try_catch
    (if negb (js_truthy (JStr name)) || negb (js_truthy (JStr pass))
     then reply 400 "Username and password required"
     else
       let! user := User_findOne in
       match user with
       | None => reply 400 "Invalid credentials"
       | Some (id, u) =>
           if negb (bcrypt_compare env pass (password u))
           then reply 400 "Invalid credentials"
           else
             User_save id u (with_presence u true (Date_now env 0)) ;;;
             reply 200 "Login successful"
       end)
    (fun _ => reply 500 "Server error").

(** [app.post('/api/messages', authenticateToken, ...)] *)
Definition post_messages (authorization : option JsString)
    (receiverId content : JsVal) : M unit :=
  authenticateToken authorization (fun senderId =>
    try_catch
      (if negb (js_truthy receiverId) || negb (js_truthy content)
       then reply 400 "Receiver and message content required"
       else
         let! trimmed := js_trim content in
         if negb (js_truthy (JStr trimmed))
         then reply 400 "Receiver and message content required"
         else
           let! message := persist_and_populate senderId receiverId trimmed in
           let! room := room_of receiverId in
           io_to_emit room (receive_message message) ;;;
           io_to_emit (user_room (JStr senderId)) (message_sent message) ;;;
           effect (HttpReplyMessage 201 message))
      (fun _ => reply 500 "Server error")).

End Handlers.

(** ** Running a handler *)

(** The world a handler leaves behind. *)
Definition run {A} (m : M A) (w : World) : World := snd (m w).

(** [w] with [l] appended to its trace, nothing else touched. *)
Definition add_log (w : World) (l : list Effect) : World :=
  mkWorld (Users w) (Messages w) (connectedUsers w) (sockets w) (log w ++ l).

(** What [user.save()] writes: the document, when it was changed. *)
Definition user_write (id : JsString) (loaded u : User) : list Effect :=
  if decide (u = loaded) then [] else [WriteUser id u].

(** [w] with message [m] stored and [l] appended to its trace. *)
Definition add_message (w : World) (m : Message) (l : list Effect) : World :=
  mkWorld (Users w) (Messages w ++ [m]) (connectedUsers w) (sockets w)
          (log w ++ l).

(** The message [on_send_message] and [post_messages] store for sender
    [uid], receiver [rid] and trimmed text [text]. *)
Definition stored_message (env : Env) (uid rid text : JsString) : Message :=
  mkMessage (new_ObjectId env) uid rid text (str "text") false false
            (Date_now env 0) (Date_now env 0).

(** Is the effect a fanout emission ([receive-message] or [message-sent])? *)
Definition is_fanout (e : Effect) : bool :=
  match e with
  | SocketEmit _ (receive_message _) | SocketEmit _ (message_sent _)
  | RoomEmit _ (receive_message _) | RoomEmit _ (message_sent _)
  | BroadcastEmit _ (receive_message _) | BroadcastEmit _ (message_sent _) =>
      true
  | _ => false
  end.

(** The three ways a run of [on_send_message] ends. *)
Inductive SendOutcome (env : Env) (sid : SocketId) (data : Payload)
    (w : World) : World -> Prop :=
| SendRejected reason :
    SendOutcome env sid data w (add_log w [SocketEmit sid (error reason)])
| SendDelivered uid r s mt rid sname rname :
    socket_userId (the_socket sid w) = Some uid ->
    data = PFields r (JStr s) mt ->
    js_truthy r = true ->
    trim s <> [] ->
    (length (trim s) <= 1000)%nat ->
    mt = JUndefined \/ mt = JStr (str "text") ->
    castObjectId env r = Some rid ->
    store_fails env OpSaveMessage = false ->
    store_fails env OpPopulateSender = false ->
    store_fails env OpPopulateReceiver = false ->
    is_Some (js_to_string r) ->
    sname = username <$> Users w !! uid ->
    rname = username <$> Users w !! rid ->
    let m := stored_message env uid rid (trim s) in
    let pm := mkPopulated m sname rname in
    SendOutcome env sid data w
      (add_message w m [WriteMessage m;
                        RoomEmit (user_room r) (receive_message pm);
                        SocketEmit sid (message_sent pm)])
| SendStoredOnly uid r s mt rid :
    socket_userId (the_socket sid w) = Some uid ->
    data = PFields r (JStr s) mt ->
    js_truthy r = true ->
    trim s <> [] ->
    (length (trim s) <= 1000)%nat ->
    mt = JUndefined \/ mt = JStr (str "text") ->
    castObjectId env r = Some rid ->
    store_fails env OpSaveMessage = false ->
    store_fails env OpPopulateSender = true
      \/ store_fails env OpPopulateReceiver = true
      \/ js_to_string r = None ->
    let m := stored_message env uid rid (trim s) in
    SendOutcome env sid data w
      (add_message w m [WriteMessage m;
                        SocketEmit sid (error "Failed to send message")]).


(** The ways a run of [post_messages] ends. *)
Inductive PostOutcome (env : Env) (authorization : option JsString)
    (r c : JsVal) (w : World) : World -> Prop :=
| PostReplied status body :
    (400 <= status)%nat ->
    PostOutcome env authorization r c w (add_log w [HttpReply status body])
| PostDelivered token uid s rid sname rname :
    jwt_verify env token = JwtDecoded uid ->
    c = JStr s ->
    js_truthy r = true ->
    trim s <> [] ->
    (length (trim s) <= 1000)%nat ->
    castObjectId env r = Some rid ->
    store_fails env OpSaveMessage = false ->
    is_Some (js_to_string r) ->
    sname = username <$> Users w !! uid ->
    rname = username <$> Users w !! rid ->
    let m := stored_message env uid rid (trim s) in
    let pm := mkPopulated m sname rname in
    PostOutcome env authorization r c w
      (add_message w m [WriteMessage m;
                        RoomEmit (user_room r) (receive_message pm);
                        RoomEmit (user_room (JStr uid)) (message_sent pm);
                        HttpReplyMessage 201 pm])
| PostStoredOnly token uid s rid :
    jwt_verify env token = JwtDecoded uid ->
    c = JStr s ->
    js_truthy r = true ->
    trim s <> [] ->
    (length (trim s) <= 1000)%nat ->
    castObjectId env r = Some rid ->
    store_fails env OpSaveMessage = false ->
    let m := stored_message env uid rid (trim s) in
    PostOutcome env authorization r c w
      (add_message w m [WriteMessage m; HttpReply 500 "Server error"]).

(** What a run of [m] from [w] appends to the trace. *)
Definition emitted (m : M unit) (w : World) : list Effect :=
  drop (length (log w)) (log (run m w)).

(** The message of a fanout emission. *)
Definition fanout_message (e : Effect) : option Message :=
  match e with
  | SocketEmit _ (receive_message pm) | SocketEmit _ (message_sent pm)
  | RoomEmit _ (receive_message pm) | RoomEmit _ (message_sent pm)
  | BroadcastEmit _ (receive_message pm) | BroadcastEmit _ (message_sent pm) =>
      Some (p_message pm)
  | _ => None
  end.

(** Persisting the message of this send fails: the store call fails, or
    validation at [save()] does (receiver not an ObjectId, text over the
    cap). *)
Definition save_fails (env : Env) (r c : JsVal) : Prop :=
  store_fails env OpSaveMessage = true
  \/ castObjectId env r = None
  \/ exists s, c = JStr s /\ (1000 < length (trim s))%nat.

(** ** The server as a transition system *)

(** What can happen to the server: a client connects, one of the socket
    events arrives, a socket closes, one of the writing REST routes is
    called, the process is told to stop. *)
Inductive Input :=
| Connection (sid : SocketId)
| Authenticate (sid : SocketId) (token : JsString)
| SendMessage (sid : SocketId) (data : Payload)
| Disconnect (sid : SocketId)
| Register (name mail pass : JsString)
| Login (name pass : JsString)
| PostMessage (authorization : option JsString) (receiverId content : JsVal)
| Sigint.

(** [io.on('connection', ...)] registers the handlers on a fresh socket;
    after the [disconnect] handler the socket is gone. *)
Definition handle (env : Env) (i : Input) : M unit :=
  match i with
  | Connection sid => set_sockets (fun ss => <[sid := new_socket]> ss)
  | Authenticate sid token => on_authenticate env sid token
  | SendMessage sid data => on_send_message env sid data
  | Disconnect sid =>
      on_disconnect env sid ;;; set_sockets (fun ss => delete sid ss)
  | Register name mail pass => post_register env name mail pass
  | Login name pass => post_login env name pass
  | PostMessage authorization receiverId content =>
      post_messages env authorization receiverId content
  | Sigint => on_SIGINT env
  end.

Definition is_exit (e : Effect) : bool :=
  match e with ProcessExit _ => true | _ => false end.

(** Has [process.exit] been called? *)
Definition exited (w : World) : bool := existsb is_exit (log w).

(** Socket events need their socket, a connection brings a new one, and
    nothing happens after exit. *)
Definition enabled (i : Input) (w : World) : Prop :=
  exited w = false /\
  match i with
  | Connection sid => sockets w !! sid = None
  | Authenticate sid _ | SendMessage sid _ | Disconnect sid =>
      is_Some (sockets w !! sid)
  | _ => True
  end.

(** The server right after start: nobody connected, and no user stored as
    online. *)
Definition initial (w : World) : Prop :=
  connectedUsers w = [] /\ sockets w = ∅ /\ log w = []
  /\ forall id u, Users w !! id = Some u -> isOnline u = false.

(** Worlds the server is in between two handler runs when only inputs in
    [allowed] occur and handler runs do not overlap: a step is one whole
    run of a handler, from the event to its last emission. *)
Inductive reachable (allowed : Input -> Prop) : World -> Prop :=
| reachable_initial w : initial w -> reachable allowed w
| reachable_step w env i :
    reachable allowed w -> allowed i -> enabled i w ->
    reachable allowed (run (handle env i) w).

Definition is_login (i : Input) : Prop :=
  match i with Login _ _ => True | _ => False end.

(** The registry has an entry for user [id]. *)
Definition registered (id : JsString) (w : World) : Prop :=
  is_Some (Map_get id (connectedUsers w)).

(** Does connected socket [sid] get the emission [e]? *)
Definition receives (w : World) (sid : SocketId) (e : Effect) : bool :=
  bool_decide (is_Some (sockets w !! sid)) &&
  match e with
  | SocketEmit to _ => bool_decide (sid = to)
  | RoomEmit room _ => bool_decide (room ∈ rooms (the_socket sid w))
  | BroadcastEmit from _ => negb (bool_decide (sid = from))
  | _ => false
  end.

(** The handshake on [token] does not end in [authenticated]. *)
Definition handshake_fails (env : Env) (token : JsString) (w : World) : Prop :=
  match jwt_verify env token with
  | JwtThrows _ => True
  | JwtDecoded uid =>
      store_fails env (OpFindById uid) = true
      \/ Users w !! uid = None
      \/ store_fails env (OpSaveUser uid) = true
  end.

(** The handshake on [token] verifies and its user lookup answers that
    there is no such user. *)
Definition unknown_subject (env : Env) (token : JsString) (w : World) : Prop :=
  exists uid, jwt_verify env token = JwtDecoded uid
              /\ store_fails env (OpFindById uid) = false
              /\ Users w !! uid = None.


(** One turn of the shutdown loop on user [uid] at clock reading [t]: the
    update, unless the call fails or there is no such document. *)
Definition mark_offline (env : Env) (uid : JsString) (t : Z) (w : World)
  : World :=
  if store_fails env (OpUpdateUser uid) then w
  else match Users w !! uid with
       | Some u =>
           mkWorld (<[uid := with_presence u false t]> (Users w)) (Messages w)
                   (connectedUsers w) (sockets w)
                   (log w ++ [WriteUser uid (with_presence u false t)])
       | None => w
       end.

(** No user is stored online in [w'] who was not already in [w]. *)
Definition no_new_online (w w' : World) : Prop :=
  forall id u', Users w' !! id = Some u' -> isOnline u' = true ->
                exists u, Users w !! id = Some u /\ isOnline u = true.

(** Whoever is stored online has a registry entry. *)
Definition online_implies_registered (w : World) : Prop :=
  forall id u, Users w !! id = Some u -> isOnline u = true -> registered id w.

(** What one transition can do to stored presence and to the registry:
    nothing that puts anyone online, a user entering the registry, or a
    user leaving it. *)
Inductive PresenceStep (w w' : World) : Prop :=
| PresenceQuiet :
    connectedUsers w' = connectedUsers w ->
    no_new_online w w' ->
    PresenceStep w w'
| PresenceEnter uid u t entry :
    Users w !! uid = Some u ->
    Users w' = <[uid := with_presence u true t]> (Users w) ->
    connectedUsers w' = Map_set uid entry (connectedUsers w) ->
    PresenceStep w w'
| PresenceLeave uid :
    connectedUsers w' = Map_delete uid (connectedUsers w) ->
    (forall id, id <> uid -> Users w' !! id = Users w !! id) ->
    (forall u', Users w' !! uid = Some u' -> isOnline u' = false) ->
    PresenceStep w w'.

(** ** Sample data *)

Module Sample.

Definition alice : User := mkUser (str "alice") (str "alice@example.org")
                                  (str "hash-a") false 0.
Definition bob : User := mkUser (str "bob") (str "bob@example.org")
                                (str "hash-b") false 0.

Definition u1 : JsString := str "u1".
Definition u2 : JsString := str "u2".

(** A freshly started server with two registered users. *)
Definition boot : World :=
  mkWorld (<[u1 := alice]> (<[u2 := bob]> ∅)) [] [] ∅ [].

(** Tokens: ["tok-" ++ id] decodes to [id]; ["expired"] has expired;
    anything else is malformed. *)
Definition sample_verify (token : JsString) : JwtResult :=
  match token with
  | 116 :: 111 :: 107 :: 45 :: id => JwtDecoded id
  | _ => if bool_decide (token = str "expired")
         then JwtThrows TokenExpiredError
         else JwtThrows JsonWebTokenError
  end%N.

Definition sample_cast (v : JsVal) : option JsString :=
  match v with JStr s => Some s | _ => None end.

(** Collaborators that all answer; [fails] names the store calls that
    do not. *)
Definition env_with (fails : StoreOp -> bool) : Env :=
  mkEnv (fun n => 1000 + Z.of_nat n) (str "m1") sample_verify
        (fun id => str "tok-" ++ id) fails sample_cast (Some u1)
        (fun p => str "hash-" ++ p) (fun _ _ => true) (fun s => s).

Definition env_ok : Env := env_with (fun _ => false).

(** Saving user [u1] fails. *)
Definition env_save_fails : Env :=
  env_with (fun op => match op with
                      | OpSaveUser id => bool_decide (id = u1)
                      | _ => false
                      end).

(** Saving a message fails. *)
Definition env_message_save_fails : Env :=
  env_with (fun op => match op with OpSaveMessage => true | _ => false end).

Definition steps (w : World) (l : list (Env * Input)) : World :=
  fold_left (fun w ei => run (handle ei.1 ei.2) w) l w.

(** Alice on socket [a], Bob on socket [b], both authenticated. *)
Definition both_online : World :=
  steps boot [(env_ok, Connection "a");
              (env_ok, Authenticate "a" (str "tok-u1"));
              (env_ok, Connection "b");
              (env_ok, Authenticate "b" (str "tok-u2"))].

(** Alice authenticated on sockets [a] then [a2]; then [a2] closed. *)
Definition second_session_closed : World :=
  steps boot [(env_ok, Connection "a");
              (env_ok, Authenticate "a" (str "tok-u1"));
              (env_ok, Connection "a2");
              (env_ok, Authenticate "a2" (str "tok-u1"));
              (env_ok, Disconnect "a2")].

(** Alice authenticated on socket [a], then again on socket [a2]. *)
Definition two_sessions : World :=
  steps boot [(env_ok, Connection "a");
              (env_ok, Authenticate "a" (str "tok-u1"));
              (env_ok, Connection "a2");
              (env_ok, Authenticate "a2" (str "tok-u1"))].

(** Alice authenticated on socket [a]; socket [c] just connected. *)
Definition before_handshake : World :=
  steps boot [(env_ok, Connection "a");
              (env_ok, Authenticate "a" (str "tok-u1"));
              (env_ok, Connection "c")].

(** ... and then on socket [c] a handshake with Alice's token during which
    saving her document fails. *)
Definition failed_handshake : World :=
  run (on_authenticate env_save_fails "c" (str "tok-u1")) before_handshake.

(** Socket [a] connected, nothing else. *)
Definition connected : World := run (handle env_ok (Connection "a")) boot.

Definition hello : Payload :=
  PFields (JStr u2) (JStr (str "hello")) JUndefined.




(** Socket [a] authenticated as Alice, then as Bob, then closed. *)
Definition reauthenticated : World :=
  run (handle env_ok (Disconnect "a"))
    (run (handle env_ok (Authenticate "a" (str "tok-u2")))
       (run (handle env_ok (Authenticate "a" (str "tok-u1")))
          (run (handle env_ok (Connection "a")) boot))).

End Sample.

(** ** Typing relay *)

(** Payload of [user-typing] and the room it goes to. *)
Record TypingEvent := mkTyping {
  typing_room : JsString;
  typing_userId : JsString;
  typing_username : option JsString;
  isTyping : bool
}.

(** [socket.on('typing', (data) => ...)]: synchronous and without
    [try/catch]; the result is the emission, if any, or the exception that
    escapes the handler (from reading [data.receiverId] or from converting
    it inside the room name). *)
Definition on_typing (socket : Socket) (data : Payload)
  : Result (option TypingEvent) :=
  match socket_userId socket with
  | None => Ok None
  | Some uid =>
      match data with
      | PNullish => Throw TypeError
      | PFields receiverId _ _ =>
          if js_truthy receiverId
          then match js_to_string receiverId with
               | Some _ => Ok (Some (mkTyping (user_room receiverId) uid
                                              (sock_username socket) true))
               | None => Throw TypeError
               end
          else Ok None
      end
  end.

(** [socket.on('stop-typing', (data) => ...)] *)
Definition on_stop_typing (socket : Socket) (data : Payload)
  : Result (option TypingEvent) :=
  match socket_userId socket with
  | None => Ok None
  | Some uid =>
      match data with
      | PNullish => Throw TypeError
      | PFields receiverId _ _ =>
          if js_truthy receiverId
          then match js_to_string receiverId with
               | Some _ => Ok (Some (mkTyping (user_room receiverId) uid
                                              (sock_username socket) false))
               | None => Throw TypeError
               end
          else Ok None
      end
  end.

(** ** Read-only REST routes

    The route callbacks, run after [authenticateToken] with
    [req.user.userId]; [find_fails] says whether the query throws. *)

(** A user as [select('username email isOnline lastSeen')] returns it. *)
Record UserView := mkView {
  view_id : JsString;
  view_username : JsString;
  view_email : JsString;
  view_isOnline : bool;
  view_lastSeen : Z
}.

Inductive RestReply :=
| RestError (status : nat) (body : string)
| RestUsers (users : list UserView)
| RestMessages (messages : list Populated).

Definition user_view (p : JsString * User) : UserView :=
  mkView p.1 (username p.2) (email p.2) (isOnline p.2) (lastSeen p.2).

(** [app.get('/api/users', ...)]: up to 50 users other than the caller, in
    the store's order. *)
Definition get_users (find_fails : bool) (me : JsString) (w : World)
  : RestReply :=
  if find_fails then RestError 500 "Server error"
  else RestUsers
         (take 50 (user_view <$>
                   filter (fun p => p.1 <> me) (map_to_list (Users w)))).

(** The [$or] query of the history route. *)
Definition in_conversation (a b : JsString) (m : Message) : Prop :=
  (sender m = a /\ receiver m = b) \/ (sender m = b /\ receiver m = a).

Global Instance in_conversation_dec a b m : Decision (in_conversation a b m).
Proof. unfold in_conversation. apply _. Defined.

(** [sort({ createdAt: 1 })] *)
Definition created_before (m1 m2 : Message) : Prop :=
  createdAt m1 <= createdAt m2.

Global Instance created_before_dec m1 m2 : Decision (created_before m1 m2).
Proof. unfold created_before. apply _. Defined.

Definition populated (w : World) (m : Message) : Populated :=
  mkPopulated m (username <$> Users w !! sender m)
              (username <$> Users w !! receiver m).

(** [app.get('/api/messages/:userId', ...)]: the conversation between the
    caller and [userId], oldest first, at most 100 messages.  The route
    parameter is cast to an ObjectId by the query. *)
Definition get_messages (env : Env) (find_fails : bool)
    (currentUserId userId : JsString) (w : World) : RestReply :=
  match castObjectId env (JStr userId) with
  | None => RestError 500 "Server error"
  | Some other =>
      if find_fails then RestError 500 "Server error"
      else RestMessages
             (populated w <$>
              take 100 (merge_sort created_before
                          (filter (in_conversation currentUserId other)
                                  (Messages w))))
  end.

(** ** The client's send (src/public/app.js)

    [sendMessage(content, type = 'text')]: what the client emits as
    [send-message], if anything; [currentChat] is the [_id] of the selected
    contact and [connected] is [this.socket && this.isConnected]. *)
Definition client_sendMessage (currentChat : option JsString)
    (connected : bool) (content : JsString) (type : JsVal) : option Payload :=
  match currentChat with
  | None => None
  | Some id =>
      if negb (js_truthy (JStr (trim content))) then None
      else if connected
      then Some (PFields (JStr id) (JStr (trim content))
                         match type with
                         | JUndefined => JStr (str "text")
                         | v => v
                         end)
      else None
  end.

(** ** Predicates used in the statements below *)

(** [u'] is [u] up to presence: name, mail and password are the same. *)
Definition same_identity (u u' : User) : Prop :=
  username u' = username u /\ email u' = email u /\ password u' = password u.

(** No whitespace at either end. *)
Definition trimmed (s : JsString) : Prop :=
  (forall c, head s = Some c -> js_whitespace c = false)
  /\ (forall c, last s = Some c -> js_whitespace c = false).

(** What [messageSchema] and the send handlers promise of a stored
    message sent by [uid] at clock reading [t]. *)
Definition well_formed_message (env : Env) (uid : JsString) (m : Message)
  : Prop :=
  msg_id m = new_ObjectId env
  /\ sender m = uid
  /\ messageType m = str "text"
  /\ delivered m = false /\ read m = false
  /\ createdAt m = Date_now env 0 /\ updatedAt m = Date_now env 0
  /\ content m <> [] /\ (length (content m) <= 1000)%nat
  /\ trimmed (content m).

(** Every socket that carries a [userId] has joined that user's room. *)
Definition sockets_in_own_room (w : World) : Prop :=
  forall sid s uid,
    sockets w !! sid = Some s -> userId s = Some uid ->
    user_room (JStr uid) ∈ rooms s.

(** Every registry key is the [_id] of a stored user. *)
Definition registry_in_store (w : World) : Prop :=
  forall uid, uid ∈ Map_keys (connectedUsers w) -> is_Some (Users w !! uid).

(** A send of payload fields [r], [c], [mt] that passes every check of the
    [send-message] handler and every store call: [rid] is the receiver as
    cast and [text] the trimmed content. *)
Definition send_accepted (env : Env) (r c mt : JsVal) (rid text : JsString)
  : Prop :=
  js_truthy r = true
  /\ (exists s, c = JStr s /\ text = trim s)
  /\ text <> [] /\ (length text <= 1000)%nat
  /\ (mt = JUndefined \/ mt = JStr (str "text"))
  /\ castObjectId env r = Some rid
  /\ store_fails env OpSaveMessage = false
  /\ store_fails env OpPopulateSender = false
  /\ store_fails env OpPopulateReceiver = false.

(** The three effects of a send that goes through on socket [sid]. *)
Definition send_effects (sid : SocketId) (r : JsVal) (pm : Populated)
  : list Effect :=
  [WriteMessage (p_message pm);
   RoomEmit (user_room r) (receive_message pm);
   SocketEmit sid (message_sent pm)].

(** ** Signals *)




(** ** Inside the handshake

    The [authenticate] handler cut where [await user.save()] resumes: what
    runs up to there, with the user it found, and what runs from there
    on.  Other handlers can run in between. *)
Definition authenticate_until_saved (env : Env) (sid : SocketId)
    (token : JsString) : M (option (JsString * User)) :=
  let! decoded := jwt_verify_call env token in
  let! user := User_findById env decoded in
  match user with
  | Some u =>
      socket_identify sid decoded (username u) ;;;
      socket_join sid (user_room (JStr decoded)) ;;;
      User_save env decoded u (with_presence u true (Date_now env 0)) ;;;
      ret (Some (decoded, u))
  | None => ret None
  end.

Definition authenticate_after_saved (sid : SocketId)
    (found : option (JsString * User)) : M unit :=
  match found with
  | Some (decoded, u) =>
      set_connectedUsers (Map_set decoded (mkConn sid (username u))) ;;;
      socket_emit sid (authenticated decoded (username u) (email u)) ;;;
      socket_broadcast_emit sid (user_online decoded (username u))
  | None => socket_emit sid (authentication_error "User not found")
  end.

(** ** Emissions *)

(** Is the effect an event sent to clients? *)
Definition is_emission (e : Effect) : bool :=
  match e with
  | SocketEmit _ _ | RoomEmit _ _ | BroadcastEmit _ _ => true
  | _ => false
  end.

(** The registry entry of user [id] is live: its socket is connected. *)
Definition live_entry (id : JsString) (w : World) : Prop :=
  exists entry, Map_get id (connectedUsers w) = Some entry
                /\ is_Some (sockets w !! socketId entry).

(** * Properties *)

Lemma add_log_app w l1 l2 : add_log (add_log w l1) l2 = add_log w (l1 ++ l2).
Proof. unfold add_log; simpl. by rewrite <- app_assoc. Qed.

Lemma Message_validate_Some env d m :
  Message_validate env d = Some m ->
  exists s r,
    d_sender d = Some s /\ d_receiver d = Some r /\ d_content d <> []
    /\ (length (d_content d) <= 1000)%nat
    /\ m = mkMessage (d_id d) s r (d_content d) (str "text") false false
                     (Date_now env 0) (Date_now env 0).
Proof.
  unfold Message_validate.
  destruct (d_sender d) as [s|]; [|discriminate].
  destruct (d_receiver d) as [r|]; [|discriminate].
  destruct (bool_decide (d_content d = [])) eqn:He; [discriminate|].
  destruct (1000 <? length (d_content d))%nat eqn:Hl; [discriminate|].
  destruct (bool_decide (d_messageType d = str "text")) eqn:Ht;
    [|discriminate].
  simpl. intros [= <-]. exists s, r.
  apply bool_decide_eq_false in He. apply Nat.ltb_ge in Hl.
  apply bool_decide_eq_true in Ht. rewrite Ht. done.
Qed.

Lemma on_send_message_outcome env sid data w :
  SendOutcome env sid data w (run (on_send_message env sid data) w).
Proof.
  unfold run, on_send_message, try_catch, bind, get_socket, socket_emit,
    io_to_emit, room_of, effect, throw, ret; simpl.
  destruct (socket_userId (the_socket sid w)) as [uid|] eqn:Hu;
    [|apply SendRejected].
  destruct data as [|r c mt0]; [apply SendRejected|].
  destruct (js_truthy r) eqn:Hr; simpl; [|apply SendRejected].
  destruct (js_truthy c) eqn:Hc; simpl; [|apply SendRejected].
  destruct c as [| |s|t q|]; try (simpl; apply SendRejected).
  unfold js_trim, ret; simpl.
  destruct (bool_decide (trim s = [])) eqn:Ht; simpl; [apply SendRejected|].
  apply bool_decide_eq_false in Ht.
  destruct (js_strict_neq_text
              match mt0 with JUndefined => JStr (str "text") | _ => mt0 end)
    eqn:Hm; [apply SendRejected|].
  assert (Hmt : mt0 = JUndefined \/ mt0 = JStr (str "text")).
  { destruct mt0 as [| |s0| |]; try discriminate; [by left|].
    simpl in Hm. apply negb_false_iff, bool_decide_eq_true in Hm.
    right; by rewrite Hm. }
  unfold persist_and_populate, bind, Message_save, new_Message.
  destruct (Message_validate env _) as [m|] eqn:Hv;
    [|apply SendRejected].
  apply Message_validate_Some in Hv as (s1 & rid & Hs & Hrid & _ & Hl & ->).
  simpl in Hs, Hrid, Hl. injection Hs as <-.
  unfold store_call, populate, store_call, throw, set_Messages, effect, bind,
    ret.
  destruct (store_fails env OpSaveMessage) eqn:Hf; [apply SendRejected|].
  simpl.
  destruct (store_fails env OpPopulateSender) eqn:Hps.
  { pose proof (SendStoredOnly env sid _ w uid r s mt0 rid
                  Hu eq_refl Hr Ht Hl Hmt Hrid Hf (or_introl Hps)) as H.
    simpl. by rewrite <- ?app_assoc. }
  simpl.
  destruct (store_fails env OpPopulateReceiver) eqn:Hpr.
  { pose proof (SendStoredOnly env sid _ w uid r s mt0 rid
                  Hu eq_refl Hr Ht Hl Hmt Hrid Hf
                  (or_intror (or_introl Hpr))) as H.
    simpl. by rewrite <- ?app_assoc. }
  simpl.
  destruct (js_to_string r) as [room|] eqn:Hroom.
  2: { pose proof (SendStoredOnly env sid _ w uid r s mt0 rid
                     Hu eq_refl Hr Ht Hl Hmt Hrid Hf
                     (or_intror (or_intror Hroom))) as H.
       simpl. by rewrite <- ?app_assoc. }
  simpl.
  pose proof (SendDelivered env sid _ w uid r s mt0 rid _ _
                Hu eq_refl Hr Ht Hl Hmt Hrid Hf Hps Hpr
                (ltac:(rewrite Hroom; eauto)) eq_refl eq_refl) as H.
  by rewrite <- ?app_assoc.
Qed.

Lemma post_messages_outcome env authorization r c w :
  PostOutcome env authorization r c w
    (run (post_messages env authorization r c) w).
Proof.
  unfold run, post_messages, authenticateToken, reply.
  destruct authorization as [h|]; [|apply PostReplied; lia].
  destruct (split_on 32 h [] !! 1%nat) as [token|]; [|apply PostReplied; lia].
  destruct (js_truthy (JStr token)); [|apply PostReplied; lia].
  destruct (jwt_verify env token) as [uid|] eqn:Hj; [|apply PostReplied; lia].
  unfold try_catch, bind, io_to_emit, room_of, effect, throw, ret; simpl.
  destruct (js_truthy r) eqn:Hr; simpl; [|apply PostReplied; lia].
  destruct (js_truthy c) eqn:Hc; simpl; [|apply PostReplied; lia].
  destruct c as [| |s|t q|]; try (simpl; apply PostReplied; lia).
  unfold js_trim, ret; simpl.
  destruct (bool_decide (trim s = [])) eqn:Ht; simpl; [apply PostReplied; lia|].
  apply bool_decide_eq_false in Ht.
  unfold persist_and_populate, bind, Message_save, new_Message.
  destruct (Message_validate env _) as [m|] eqn:Hv;
    [|apply PostReplied; lia].
  apply Message_validate_Some in Hv as (s1 & rid & Hs & Hrid & _ & Hl & ->).
  simpl in Hs, Hrid, Hl. injection Hs as <-.
  unfold store_call, populate, store_call, throw, set_Messages, effect, bind,
    ret.
  destruct (store_fails env OpSaveMessage) eqn:Hf; [apply PostReplied; lia|].
  simpl.
  pose proof (PostStoredOnly env (Some h) r _ w token uid s rid
                Hj eq_refl Hr Ht Hl Hrid Hf) as Hso.
  destruct (store_fails env OpPopulateSender) eqn:Hps.
  { simpl. by rewrite <- ?app_assoc. }
  simpl.
  destruct (store_fails env OpPopulateReceiver) eqn:Hpr.
  { simpl. by rewrite <- ?app_assoc. }
  simpl.
  destruct (js_to_string r) as [room|] eqn:Hroom.
  2: { simpl. by rewrite <- ?app_assoc. }
  simpl.
  pose proof (PostDelivered env (Some h) r _ w token uid s rid _ _
                Hj eq_refl Hr Ht Hl Hrid Hf
                (ltac:(rewrite Hroom; eauto)) eq_refl eq_refl) as H.
  by rewrite <- ?app_assoc.
Qed.

(** ** Facts about traces *)

Lemma emitted_add_log m w l : run m w = add_log w l -> emitted m w = l.
Proof. unfold emitted. intros ->. simpl. apply drop_app_length. Qed.

Lemma emitted_add_message m w msg l :
  run m w = add_message w msg l -> emitted m w = l.
Proof. unfold emitted. intros ->. simpl. apply drop_app_length. Qed.

(** Case analysis on how a run of [on_send_message] ended; [Heq] names the
    equation between the outcome and the run. *)
Ltac send_cases env sid data w Heq :=
  let Ho := fresh "Ho" in
  let w' := fresh "w'" in
  pose proof (on_send_message_outcome env sid data w) as Ho;
  remember (run (on_send_message env sid data) w) as w' eqn:Heq in Ho;
  destruct Ho as
    [ ?reason
    | ?uid ?r ?s ?mt ?rid ?sname ?rname ?Hu ?Hd ?Hr ?Ht ?Hl ?Hmt ?Hc ?Hf
        ?Hps ?Hpr ?Hroom ?Hsn ?Hrn
    | ?uid ?r ?s ?mt ?rid ?Hu ?Hd ?Hr ?Ht ?Hl ?Hmt ?Hc ?Hf ?Hp ];
  symmetry in Heq.

Ltac post_cases env a r c w Heq :=
  let Ho := fresh "Ho" in
  let w' := fresh "w'" in
  pose proof (post_messages_outcome env a r c w) as Ho;
  remember (run (post_messages env a r c) w) as w' eqn:Heq in Ho;
  destruct Ho as
    [ ?status ?body ?Hst
    | ?token ?uid ?s ?rid ?sname ?rname ?Hj ?Hd ?Hr ?Ht ?Hl ?Hc ?Hf ?Hroom
        ?Hsn ?Hrn
    | ?token ?uid ?s ?rid ?Hj ?Hd ?Hr ?Ht ?Hl ?Hc ?Hf ];
  symmetry in Heq.

(** ** Sending *)

Section Sending.

Import Sample.

(** C1, as stated, fails: Alice sends "hello" to Bob while Bob is connected
    and registered; Bob's socket gets [receive-message] with [delivered]
    false, and the stored message keeps [delivered] false. *)
Lemma C1_delivered_stays_false :
  let w := both_online in
  let w' := run (on_send_message env_ok "a" hello) w in
  let m := stored_message env_ok u1 u2 (str "hello") in
  let pm := mkPopulated m (Some (str "alice")) (Some (str "bob")) in
  Map_get u2 (connectedUsers w) = Some (mkConn "b" (str "bob"))
  /\ emitted (on_send_message env_ok "a" hello) w
     = [WriteMessage m;
        RoomEmit (user_room (JStr u2)) (receive_message pm);
        SocketEmit "a" (message_sent pm)]
  /\ receives w' "b" (RoomEmit (user_room (JStr u2)) (receive_message pm))
     = true
  /\ delivered (p_message pm) = false
  /\ Messages w' = [m]
  /\ delivered m = false.
Proof. vm_compute. repeat split. Qed.

(** C1, amended: whenever a run of the [send-message] handler emits
    [receive-message], the message was stored with [delivered] false, the
    same message is what the receiver's room and then the sender get, and
    the run ends with these two emissions: nothing is written after them. *)
Theorem C1_fanout_carries_delivered_false env sid data w room pm :
  RoomEmit room (receive_message pm) ∈ emitted (on_send_message env sid data) w ->
  let w' := run (on_send_message env sid data) w in
  let m := p_message pm in
  delivered m = false
  /\ Messages w' = Messages w ++ [m]
  /\ Users w' = Users w
  /\ emitted (on_send_message env sid data) w
     = [WriteMessage m;
        RoomEmit room (receive_message pm);
        SocketEmit sid (message_sent pm)].
Proof.
  intros Hin w' m. subst w' m.
  send_cases env sid data w Heq.
  - rewrite (emitted_add_log _ _ _ Heq) in Hin.
    apply list_elem_of_singleton in Hin. discriminate.
  - rewrite (emitted_add_message _ _ _ _ Heq) in Hin |- *.
    rewrite Heq.
    rewrite !elem_of_cons in Hin.
    destruct Hin as [Hin|[Hin|[Hin|Hin]]]; try discriminate.
    + injection Hin as -> ->. done.
    + by apply elem_of_nil in Hin.
  - rewrite (emitted_add_message _ _ _ _ Heq) in Hin.
    rewrite !elem_of_cons in Hin.
    destruct Hin as [Hin|[Hin|Hin]]; try discriminate.
    by apply elem_of_nil in Hin.
Qed.

(** C1: the hypothesis of the amended statement holds when Alice sends
    "hello" to Bob. *)
Lemma C1_fanout_carries_delivered_false_witness :
  let pm := mkPopulated (stored_message env_ok u1 u2 (str "hello"))
                        (Some (str "alice")) (Some (str "bob")) in
  delivered (p_message pm) = false
  /\ Messages (run (on_send_message env_ok "a" hello) both_online)
     = Messages both_online ++ [p_message pm]
  /\ Users (run (on_send_message env_ok "a" hello) both_online)
     = Users both_online
  /\ emitted (on_send_message env_ok "a" hello) both_online
     = [WriteMessage (p_message pm);
        RoomEmit (user_room (JStr u2)) (receive_message pm);
        SocketEmit "a" (message_sent pm)].
Proof.
  intros pm.
  apply (C1_fanout_carries_delivered_false env_ok "a" hello both_online
           (user_room (JStr u2)) pm).
  vm_compute. apply list_elem_of_further, list_elem_of_here.
Defined.

(** C4, as stated, fails: Alice authenticated on two sockets and the second
    one closed, so the registry has no entry for her; a send from her first
    socket is stored and fanned out all the same. *)
Lemma C4_unregistered_sender_still_sends :
  let w := second_session_closed in
  let m := stored_message env_ok u1 u2 (str "hello") in
  let pm := mkPopulated m (Some (str "alice")) (Some (str "bob")) in
  Map_get u1 (connectedUsers w) = None
  /\ Messages (run (on_send_message env_ok "a" hello) w) = [m]
  /\ emitted (on_send_message env_ok "a" hello) w
     = [WriteMessage m;
        RoomEmit (user_room (JStr u2)) (receive_message pm);
        SocketEmit "a" (message_sent pm)].
Proof. vm_compute. repeat split. Qed.

(** C4, amended: a [send-message] on a socket whose [userId] is not set
    emits [error] to that socket and does nothing else: no message is
    stored, nothing goes to any room. *)
Theorem C4_socket_without_userId_cannot_send env sid data w :
  socket_userId (the_socket sid w) = None ->
  run (on_send_message env sid data) w
  = add_log w [SocketEmit sid (error "Not authenticated")].
Proof.
  intros Hu.
  unfold run, on_send_message, try_catch, bind, get_socket; simpl.
  by rewrite Hu.
Qed.

Lemma C4_socket_without_userId_cannot_send_witness :
  run (on_send_message env_ok "a" hello)
      (run (handle env_ok (Connection "a")) boot)
  = add_log (run (handle env_ok (Connection "a")) boot)
            [SocketEmit "a" (error "Not authenticated")].
Proof.
  apply (C4_socket_without_userId_cannot_send env_ok "a" hello).
  vm_compute. reflexivity.
Defined.




(** C6: in every run of a send handler, socket or REST, a fanout emission
    is preceded by the write of the very message it carries, stamped with
    the server's clock; and when persisting fails the run stores nothing,
    emits nothing to any room and reports one error to the sender. *)
Theorem C6_no_fanout_without_persistence env sid data authorization r c mt w :
  (forall e, e ∈ emitted (on_send_message env sid data) w ->
             is_fanout e = true ->
     exists m rest,
       emitted (on_send_message env sid data) w = WriteMessage m :: rest
       /\ e ∈ rest /\ fanout_message e = Some m
       /\ createdAt m = Date_now env 0
       /\ Messages (run (on_send_message env sid data) w) = Messages w ++ [m])
  /\ (save_fails env r c ->
      exists reason,
        run (on_send_message env sid (PFields r c mt)) w
        = add_log w [SocketEmit sid (error reason)])
  /\ (forall e, e ∈ emitted (post_messages env authorization r c) w ->
                is_fanout e = true ->
     exists m rest,
       emitted (post_messages env authorization r c) w = WriteMessage m :: rest
       /\ e ∈ rest /\ fanout_message e = Some m
       /\ createdAt m = Date_now env 0
       /\ Messages (run (post_messages env authorization r c) w)
          = Messages w ++ [m])
  /\ (save_fails env r c ->
      exists status body,
        run (post_messages env authorization r c) w
        = add_log w [HttpReply status body] /\ (400 <= status)%nat).
Proof.
  assert (Hsf : save_fails env r c ->
                forall s rid, c = JStr s -> castObjectId env r = Some rid ->
                  store_fails env OpSaveMessage = false ->
                  (length (trim s) <= 1000)%nat -> False).
  { intros [Hf|[Hc|(s' & -> & Hl)]] s rid Hs Hc' Hf' Hl';
      [congruence|congruence|injection Hs as <-; lia]. }
  repeat split.
  - intros e Hin Hfan. send_cases env sid data w Heq.
    + rewrite (emitted_add_log _ _ _ Heq) in Hin.
      apply list_elem_of_singleton in Hin. by subst e.
    + rewrite (emitted_add_message _ _ _ _ Heq) in Hin |- *. rewrite Heq.
      eexists _, _. split; [reflexivity|].
      rewrite elem_of_cons in Hin. destruct Hin as [->|Hin]; [done|].
      split; [done|]. split; [|done].
      rewrite !elem_of_cons in Hin.
      destruct Hin as [->|[->|Hin]]; [done|done|by apply elem_of_nil in Hin].
    + rewrite (emitted_add_message _ _ _ _ Heq) in Hin.
      rewrite !elem_of_cons in Hin.
      destruct Hin as [->|[->|Hin]]; [done|done|by apply elem_of_nil in Hin].
  - intros Hfail. send_cases env sid (PFields r c mt) w Heq; [by eexists| |];
      injection Hd as -> -> ->; exfalso; eauto.
  - intros e Hin Hfan. post_cases env authorization r c w Heq.
    + rewrite (emitted_add_log _ _ _ Heq) in Hin.
      apply list_elem_of_singleton in Hin. by subst e.
    + rewrite (emitted_add_message _ _ _ _ Heq) in Hin |- *. rewrite Heq.
      eexists _, _. split; [reflexivity|].
      rewrite elem_of_cons in Hin. destruct Hin as [->|Hin]; [done|].
      split; [done|]. split; [|done].
      rewrite !elem_of_cons in Hin.
      destruct Hin as [->|[->|[->|Hin]]];
        [done|done|done|by apply elem_of_nil in Hin].
    + rewrite (emitted_add_message _ _ _ _ Heq) in Hin.
      rewrite !elem_of_cons in Hin.
      destruct Hin as [->|[->|Hin]]; [done|done|by apply elem_of_nil in Hin].
  - intros Hfail. post_cases env authorization r c w Heq;
      [by eexists _, _| |]; exfalso; eauto.
Qed.

(** C6 at a send of "hello" during which the store refuses the message. *)
Lemma C6_no_fanout_without_persistence_witness :
  exists reason,
    run (on_send_message env_message_save_fails "a" hello) both_online
    = add_log both_online [SocketEmit "a" (error reason)].
Proof.
  apply (C6_no_fanout_without_persistence env_message_save_fails "a" hello
           None (JStr u2) (JStr (str "hello")) JUndefined both_online).
  left. reflexivity.
Defined.

(** C9: a [send-message] whose [messageType] is present and is not 'text'
    gets one [error] event on the sender's socket and stores nothing. *)
Theorem C9_only_text_messages env sid r c mt w :
  mt <> JUndefined -> mt <> JStr (str "text") ->
  exists reason,
    run (on_send_message env sid (PFields r c mt)) w
    = add_log w [SocketEmit sid (error reason)].
Proof.
  intros Hu Ht.
  send_cases env sid (PFields r c mt) w Heq; [by eexists| |];
    injection Hd as -> -> ->; by destruct Hmt.
Qed.

Lemma C9_only_text_messages_witness :
  exists reason,
    run (on_send_message env_ok "a"
           (PFields (JStr u2) (JStr (str "hello")) (JStr (str "image"))))
        both_online
    = add_log both_online [SocketEmit "a" (error reason)].
Proof.
  apply (C9_only_text_messages env_ok "a"); discriminate.
Defined.

End Sending.

(** ** The handshake *)

(** The handshake is its two segments run one after the other, under the
    handler's [catch]. *)
Lemma on_authenticate_segments env sid token w :
  on_authenticate env sid token w
  = try_catch
      (let! found := authenticate_until_saved env sid token in
       authenticate_after_saved sid found)
      (fun _ => socket_emit sid (authentication_error "Invalid token")) w.
Proof.
  unfold on_authenticate, authenticate_until_saved, authenticate_after_saved,
    try_catch, bind, jwt_verify_call, User_findById, store_call, throw, ret.
  destruct (jwt_verify env token) as [uid|e]; [|done].
  destruct (store_fails env (OpFindById uid)); [done|].
  destruct (Users w !! uid) as [u|]; [|done].
  unfold socket_identify, socket_join, update_socket, set_sockets, User_save,
    store_call, bind, throw.
  cbn [fst snd].
  destruct (store_fails env (OpSaveUser uid)); [done|].
  unfold set_Users, ret, effect. cbn [fst snd].
  by destruct (decide (with_presence u true (Date_now env 0) = u)).
Qed.

(** How a run of [on_authenticate] ends: the reply it sends and what it
    leaves in the store and in the registry. *)
Lemma on_authenticate_cases env sid token w :
  let w' := run (on_authenticate env sid token) w in
  Messages w' = Messages w /\
  ((handshake_fails env token w
    /\ Users w' = Users w
    /\ connectedUsers w' = connectedUsers w
    /\ ((unknown_subject env token w
         /\ log w' = log w
                     ++ [SocketEmit sid (authentication_error "User not found")])
        \/ (~ unknown_subject env token w
            /\ log w' = log w
                        ++ [SocketEmit sid (authentication_error "Invalid token")])))
   \/ (exists uid u,
         jwt_verify env token = JwtDecoded uid
         /\ store_fails env (OpFindById uid) = false
         /\ store_fails env (OpSaveUser uid) = false
         /\ Users w !! uid = Some u
         /\ Users w' = <[uid := with_presence u true (Date_now env 0)]> (Users w)
         /\ connectedUsers w'
            = Map_set uid (mkConn sid (username u)) (connectedUsers w)
         /\ socket_userId (the_socket sid w') = socket_userId (mkSocket (Some uid) None [])
         /\ log w' = log w
                     ++ user_write uid u (with_presence u true (Date_now env 0))
                     ++ [SocketEmit sid (authenticated uid (username u) (email u));
                         BroadcastEmit sid (user_online uid (username u))])).
Proof.
  unfold run, on_authenticate, try_catch, bind, jwt_verify_call,
    handshake_fails, unknown_subject, User_findById, store_call, throw, ret.
  destruct (jwt_verify env token) as [uid|e] eqn:Hj; simpl.
  2: { split; [done|]. left. repeat split; try done. right.
       split; [|done]. by intros (? & ? & _). }
  destruct (store_fails env (OpFindById uid)) eqn:Hf; simpl.
  { split; [done|]. left. split; [by left|]. repeat split; try done. right.
    split; [|done]. intros (? & [= <-] & ? & _). congruence. }
  destruct (Users w !! uid) as [u|] eqn:Hu; simpl.
  2: { split; [done|]. left. split; [by right; left|].
       repeat split; try done. left. split; [|done]. by exists uid. }
  unfold socket_identify, socket_join, update_socket, set_sockets, User_save,
    store_call, bind, throw, set_Users, set_connectedUsers, socket_emit,
    socket_broadcast_emit, effect.
  cbn [fst snd Users Messages connectedUsers sockets log].
  destruct (store_fails env (OpSaveUser uid)) eqn:Hs;
    cbn [fst snd Users Messages connectedUsers sockets log].
  { split; [done|]. left. split; [by right; right|].
    repeat split; try done. right.
    split; [|done]. intros (? & [= <-] & _ & ?). congruence. }
  unfold user_write, ret.
  destruct (decide (with_presence u true (Date_now env 0) = u)) as [Hsame|Hmod];
    cbn [fst snd Users Messages connectedUsers sockets log].
  all: split; [done|]; right; exists uid, u.
  1: rewrite (decide_True (P := with_presence u true (Date_now env 0) = u))
       by done.
  2: rewrite (decide_False (P := with_presence u true (Date_now env 0) = u))
       by done.
  all: repeat split; try done.
  - unfold the_socket. cbn [sockets]. by rewrite !lookup_insert_eq.
  - by rewrite <- ?app_assoc.
  - unfold the_socket. cbn [sockets]. by rewrite !lookup_insert_eq.
  - by rewrite <- !app_assoc.
Qed.

Section Handshake.

Import Sample.

(** C3, as stated, fails: on the same socket an expired token is answered
    with 'Invalid token' and a valid token of a user nobody stored with
    'User not found'. *)
Lemma C3_failure_replies_differ :
  handshake_fails env_ok (str "expired") connected
  /\ handshake_fails env_ok (str "tok-u9") connected
  /\ emitted (on_authenticate env_ok "a" (str "expired")) connected
     = [SocketEmit "a" (authentication_error "Invalid token")]
  /\ emitted (on_authenticate env_ok "a" (str "tok-u9")) connected
     = [SocketEmit "a" (authentication_error "User not found")]
  /\ emitted (on_authenticate env_ok "a" (str "expired")) connected
     <> emitted (on_authenticate env_ok "a" (str "tok-u9")) connected.
Proof.
  split; [exact I|]. split; [right; left; reflexivity|].
  split; [reflexivity|]. split; [reflexivity|]. discriminate.
Qed.

(** C3, amended: every failing handshake is answered with one
    [authentication-error] event on that socket and nothing else, and
    leaves the store and the registry as they were; its reason is 'User not
    found' when the token verifies and the lookup finds no user, and
    'Invalid token' in every other case, so an expired and a malformed
    token get the same reply. *)
Theorem C3_failed_handshake_reply env sid token w :
  handshake_fails env token w ->
  let w' := run (on_authenticate env sid token) w in
  Users w' = Users w /\ Messages w' = Messages w
  /\ connectedUsers w' = connectedUsers w
  /\ ((unknown_subject env token w
       /\ emitted (on_authenticate env sid token) w
          = [SocketEmit sid (authentication_error "User not found")])
      \/ (~ unknown_subject env token w
          /\ emitted (on_authenticate env sid token) w
             = [SocketEmit sid (authentication_error "Invalid token")])).
Proof.
  intros Hfail w'. subst w'. unfold emitted.
  destruct (on_authenticate_cases env sid token w)
    as [Hm [(_ & Hu & Hc & Hl)|(uid & u & Hj & Hf & Hs & Hu & _)]].
  - repeat split; try done.
    destruct Hl as [[Hk ->]|[Hk ->]]; [left|right];
      by rewrite drop_app_length.
  - exfalso. unfold handshake_fails in Hfail. rewrite Hj in Hfail.
    destruct Hfail as [?|[?|?]]; congruence.
Qed.

Lemma C3_failed_handshake_reply_witness :
  let w' := run (on_authenticate env_ok "a" (str "expired")) connected in
  Users w' = Users connected /\ Messages w' = Messages connected
  /\ connectedUsers w' = connectedUsers connected
  /\ ((unknown_subject env_ok (str "expired") connected
       /\ emitted (on_authenticate env_ok "a" (str "expired")) connected
          = [SocketEmit "a" (authentication_error "User not found")])
      \/ (~ unknown_subject env_ok (str "expired") connected
          /\ emitted (on_authenticate env_ok "a" (str "expired")) connected
             = [SocketEmit "a" (authentication_error "Invalid token")])).
Proof.
  apply (C3_failed_handshake_reply env_ok "a" (str "expired") connected).
  exact I.
Defined.

End Handshake.

(** ** Disconnection *)

Lemma on_disconnect_cases env sid w :
  let w' := run (on_disconnect env sid) w in
  match socket_userId (the_socket sid w) with
  | None => w' = w
  | Some uid =>
      if store_fails env (OpFindById uid) then w' = w
      else
        Messages w' = Messages w /\ sockets w' = sockets w /\
        match Users w !! uid with
        | Some u =>
            if store_fails env (OpSaveUser uid) then w' = w
            else
              Users w' = <[uid := with_presence u false (Date_now env 0)]> (Users w)
              /\ connectedUsers w' = Map_delete uid (connectedUsers w)
              /\ log w' = log w
                   ++ user_write uid u (with_presence u false (Date_now env 0))
                   ++ [BroadcastEmit sid
                         (user_offline uid (sock_username (the_socket sid w)))]
        | None =>
            Users w' = Users w
            /\ connectedUsers w' = Map_delete uid (connectedUsers w)
            /\ log w' = log w
                 ++ [BroadcastEmit sid
                       (user_offline uid (sock_username (the_socket sid w)))]
        end
  end.
Proof.
  unfold run, on_disconnect, bind, get_socket; simpl.
  destruct (socket_userId (the_socket sid w)) as [uid|]; [|done].
  unfold try_catch, bind, User_findById, User_save, store_call, throw, ret.
  destruct (store_fails env (OpFindById uid)); [done|]. simpl.
  destruct (Users w !! uid) as [u|].
  - destruct (store_fails env (OpSaveUser uid)); [done|]. simpl.
    unfold user_write.
    destruct (decide (with_presence u false (Date_now env 0) = u)); simpl;
      repeat split; try done; by rewrite <- ?app_assoc.
  - simpl. done.
Qed.

(** A socket whose [userId] is not set disconnects without a trace. *)
Lemma on_disconnect_without_userId env sid w :
  socket_userId (the_socket sid w) = None ->
  run (on_disconnect env sid) w = w.
Proof.
  intros H. pose proof (on_disconnect_cases env sid w) as Hc.
  by rewrite H in Hc.
Qed.

(** *** The [Map] keeps one entry per key *)

Lemma Map_get_set_eq {V} k (v : V) m : Map_get k (Map_set k v m) = Some v.
Proof.
  induction m as [|[k' v'] m IH]; simpl.
  - by rewrite decide_True.
  - destruct (decide (k = k')) as [->|Hne]; simpl.
    + by rewrite decide_True.
    + by rewrite decide_False.
Qed.

Lemma Map_get_set_ne {V} k k' (v : V) m :
  k' <> k -> Map_get k' (Map_set k v m) = Map_get k' m.
Proof.
  intros Hne. induction m as [|[k0 v0] m IH]; simpl.
  - by rewrite decide_False.
  - destruct (decide (k = k0)) as [->|Hne0]; simpl.
    + by rewrite !decide_False.
    + destruct (decide (k' = k0)); done.
Qed.

Lemma Map_get_delete_ne {V} k k' (m : list (JsString * V)) :
  k' <> k -> Map_get k' (Map_delete k m) = Map_get k' m.
Proof.
  intros Hne. induction m as [|[k0 v0] m IH]; simpl; [done|].
  destruct (decide (k = k0)) as [->|Hne0]; simpl.
  - by rewrite decide_False.
  - destruct (decide (k' = k0)); done.
Qed.

Lemma Map_get_None {V} k (m : list (JsString * V)) :
  Map_get k m = None <-> k ∉ Map_keys m.
Proof.
  unfold Map_keys. induction m as [|[k0 v0] m IH]; simpl.
  - split; [intros _; apply not_elem_of_nil|done].
  - rewrite not_elem_of_cons. destruct (decide (k = k0)) as [->|Hne].
    + split; [done|]. by intros [? _].
    + rewrite IH. split; [by intros ?|by intros [_ ?]].
Qed.

Lemma Map_delete_absent {V} k (m : list (JsString * V)) :
  Map_get k m = None -> Map_delete k m = m.
Proof.
  induction m as [|[k0 v0] m IH]; simpl; [done|].
  destruct (decide (k = k0)); [done|]. intros H. by rewrite IH.
Qed.

Lemma Map_keys_delete_subseteq {V} k (m : list (JsString * V)) :
  Map_keys (Map_delete k m) ⊆ Map_keys m.
Proof.
  unfold Map_keys. induction m as [|[k0 v0] m IH]; simpl; [done|].
  destruct (decide (k = k0)); simpl.
  - intros x Hx. by apply list_elem_of_further.
  - intros x. rewrite !elem_of_cons. intros [->|Hx]; [by left|].
    right. by apply IH.
Qed.

Lemma Map_keys_set {V} k (v : V) m :
  forall k', k' ∈ Map_keys (Map_set k v m) -> k' = k \/ k' ∈ Map_keys m.
Proof.
  unfold Map_keys. induction m as [|[k0 v0] m IH]; simpl; intros k'.
  - rewrite list_elem_of_singleton. by left.
  - destruct (decide (k = k0)) as [->|Hne]; simpl; rewrite !elem_of_cons.
    + intros [->|H]; [by left|by right; right].
    + intros [->|H]; [by right; left|]. destruct (IH _ H); auto.
Qed.

Lemma Map_set_NoDup {V} k (v : V) m :
  NoDup (Map_keys m) -> NoDup (Map_keys (Map_set k v m)).
Proof.
  unfold Map_keys. induction m as [|[k0 v0] m IH]; simpl; intros Hnd.
  - apply NoDup_singleton.
  - apply NoDup_cons in Hnd as [Hk0 Hnd].
    destruct (decide (k = k0)) as [->|Hne]; simpl.
    + by apply NoDup_cons.
    + apply NoDup_cons. split; [|by apply IH].
      intros Hin. apply (Map_keys_set k v m) in Hin as [?|?]; done.
Qed.

Lemma Map_delete_NoDup {V} k (m : list (JsString * V)) :
  NoDup (Map_keys m) -> NoDup (Map_keys (Map_delete k m)).
Proof.
  unfold Map_keys. induction m as [|[k0 v0] m IH]; simpl; intros Hnd; [done|].
  apply NoDup_cons in Hnd as [Hk0 Hnd].
  destruct (decide (k = k0)); simpl; [done|].
  apply NoDup_cons. split; [|by apply IH].
  intros Hin. by apply (Map_keys_delete_subseteq k m) in Hin.
Qed.

Lemma Map_get_delete_eq {V} k (m : list (JsString * V)) :
  NoDup (Map_keys m) -> Map_get k (Map_delete k m) = None.
Proof.
  unfold Map_keys. induction m as [|[k0 v0] m IH]; simpl; intros Hnd; [done|].
  apply NoDup_cons in Hnd as [Hk0 Hnd].
  destruct (decide (k = k0)) as [->|Hne]; simpl.
  - by apply Map_get_None.
  - rewrite decide_False by done. by apply IH.
Qed.

(** ** Shutdown *)

Lemma with_presence_twice u a b c d :
  with_presence (with_presence u a b) c d = with_presence u c d.
Proof. done. Qed.

Lemma sweep_iteration env uid t w :
  try_catch (User_findByIdAndUpdate env uid false t) (fun _ => ret tt) w
  = (Ok tt, mark_offline env uid t w).
Proof.
  unfold try_catch, User_findByIdAndUpdate, store_call, mark_offline, throw,
    ret.
  destruct (store_fails env (OpUpdateUser uid)); [done|].
  destruct (Users w !! uid); [|done].
  unfold bind, set_Users, effect. done.
Qed.

Lemma mark_offline_frame env uid t w :
  Messages (mark_offline env uid t w) = Messages w
  /\ connectedUsers (mark_offline env uid t w) = connectedUsers w
  /\ sockets (mark_offline env uid t w) = sockets w
  /\ forall id, id <> uid ->
       Users (mark_offline env uid t w) !! id = Users w !! id.
Proof.
  unfold mark_offline.
  destruct (store_fails env (OpUpdateUser uid)); [done|].
  destruct (Users w !! uid); [|done]. simpl.
  repeat split. intros id Hne. by rewrite lookup_insert_ne.
Qed.

(** The loop visits every entry, whatever fails on the way: it always
    returns, touches nothing but the users it visits, only ever writes
    [isOnline = false], and each visited user whose update goes through ends
    up offline with the clock reading of some turn on that user. *)
Lemma sweep_spec env entries : forall i w,
  exists l,
    let w' := run (sweep env i entries) w in
    fst (sweep env i entries w) = Ok tt
    /\ Messages w' = Messages w
    /\ connectedUsers w' = connectedUsers w
    /\ sockets w' = sockets w
    /\ log w' = log w ++ l
    /\ Forall (fun e => is_exit e = false) l
    /\ (forall id, id ∉ Map_keys entries -> Users w' !! id = Users w !! id)
    /\ no_new_online w w'
    /\ (forall id u,
          id ∈ Map_keys entries ->
          store_fails env (OpUpdateUser id) = false ->
          Users w !! id = Some u ->
          exists j,
            Map_keys entries !! j = Some id
            /\ Users w' !! id
               = Some (with_presence u false (Date_now env (i + j)))
            /\ WriteUser id (with_presence u false (Date_now env (i + j))) ∈ l).
Proof.
  unfold Map_keys, run.
  induction entries as [|[k c] rest IH]; intros i w.
  - exists []. simpl. rewrite app_nil_r. repeat split; try done.
    + intros id u' H1 H2. by exists u'.
    + intros id u Hin. by apply elem_of_nil in Hin.
  - simpl. unfold bind. rewrite sweep_iteration.
    set (w1 := mark_offline env k (Date_now env i) w).
    destruct (IH (S i) w1) as (l' & Hok & Hm & Hc & Hs & Hl & Hx & Hfr & Hno & Hmain).
    destruct (mark_offline_frame env k (Date_now env i) w)
      as (Hm1 & Hc1 & Hs1 & Hfr1). fold w1 in Hm1, Hc1, Hs1, Hfr1.
    assert (Hl1 : exists l1, log w1 = log w ++ l1
              /\ Forall (fun e => is_exit e = false) l1
              /\ (forall u, store_fails env (OpUpdateUser k) = false ->
                    Users w !! k = Some u ->
                    Users w1 !! k
                    = Some (with_presence u false (Date_now env i))
                    /\ WriteUser k (with_presence u false (Date_now env i)) ∈ l1)
              /\ no_new_online w w1).
    { unfold w1, mark_offline.
      destruct (store_fails env (OpUpdateUser k)) eqn:Hf.
      { exists []. rewrite app_nil_r. repeat split; try done.
        intros id u' H1 H2. by exists u'. }
      destruct (Users w !! k) as [u0|] eqn:Hu0.
      2: { exists []. rewrite app_nil_r. repeat split; try done.
           intros id u' H1 H2. by exists u'. }
      eexists [_]. simpl. split; [done|]. split; [by repeat constructor|].
      split.
      - intros u _ [= <-]. rewrite lookup_insert_eq. split; [done|].
        apply list_elem_of_here.
      - intros id u' H1 H2. simpl in H1.
        destruct (decide (id = k)) as [->|Hne].
        + rewrite lookup_insert_eq in H1. by injection H1 as <-.
        + rewrite lookup_insert_ne in H1 by done. by exists u'. }
    destruct Hl1 as (l1 & Hlog1 & Hx1 & Hk & Hno1).
    exists (l1 ++ l'). cbn zeta in *.
    split; [done|]. split; [congruence|]. split; [congruence|].
    split; [congruence|].
    split; [by rewrite Hl, Hlog1, app_assoc|].
    split; [by apply Forall_app|].
    split.
    { intros id Hid. apply not_elem_of_cons in Hid as [Hne Hid].
      rewrite Hfr by done. by apply Hfr1. }
    split.
    { intros id u' H1 H2. destruct (Hno id u' H1 H2) as (u1 & Hu1 & Ho1).
      by apply (Hno1 id u1). }
    intros id u Hin Hf Hu.
    destruct (decide (id ∈ rest.*1)) as [Hr|Hr].
    + destruct (decide (id = k)) as [->|Hne].
      * destruct (Hk u Hf Hu) as [Hu1 _].
        destruct (Hmain k _ Hr Hf Hu1) as (j & Hj & Huj & Hwj).
        exists (S j). rewrite Nat.add_succ_r. split; [done|].
        split; [done|]. apply elem_of_app. by right.
      * rewrite <- Hfr1 in Hu by done.
        destruct (Hmain id u Hr Hf Hu) as (j & Hj & Huj & Hwj).
        exists (S j). rewrite Nat.add_succ_r. split; [done|].
        split; [done|]. apply elem_of_app. by right.
    + apply elem_of_cons in Hin as [->|Hin]; [|done].
      destruct (Hk u Hf Hu) as [Hu1 Hw1].
      exists 0%nat. rewrite Nat.add_0_r. split; [done|].
      split; [by rewrite Hfr|]. apply elem_of_app. by left.
Qed.

Section Shutdown.

Import Sample.




End Shutdown.

(** ** Presence and the registry along a run *)

Lemma no_new_online_same w w' : Users w' = Users w -> no_new_online w w'.
Proof. intros H id u' H1 H2. rewrite H in H1. by exists u'. Qed.

Lemma run_then_set_sockets {A} (m : M A) f w :
  let w' := run (bind m (fun _ => set_sockets f)) w in
  Users w' = Users (run m w) /\ Messages w' = Messages (run m w)
  /\ connectedUsers w' = connectedUsers (run m w) /\ log w' = log (run m w).
Proof. unfold run, bind. by destruct (m w) as [[a|e] w1]. Qed.

Lemma post_register_presence env name mail pass w :
  let w' := run (post_register env name mail pass) w in
  connectedUsers w' = connectedUsers w /\ no_new_online w w'.
Proof.
  unfold run, post_register, try_catch, reply, effect, bind, User_findOne,
    store_call, throw, get_world, set_Users, ret.
  repeat match goal with
         | |- context [if ?b then _ else _] => destruct b eqn:?; simpl
         | |- context [match ?o with Some _ => _ | None => _ end] =>
             destruct o eqn:?; simpl
         end;
    try (split; [done|by apply no_new_online_same]).
  split; [done|]. intros id u' H1 H2. simpl in H1.
  match goal with H : bool_decide (is_Some _) = false |- _ =>
    apply bool_decide_eq_false in H; rename H into Hfresh end.
  destruct (decide (id = new_ObjectId env)) as [->|Hne].
  - rewrite lookup_insert_eq in H1. by injection H1 as <-.
  - rewrite lookup_insert_ne in H1 by done. by exists u'.
Qed.

Lemma post_login_registry env name pass w :
  connectedUsers (run (post_login env name pass) w) = connectedUsers w.
Proof.
  unfold run, post_login, try_catch, reply, effect, bind, User_findOne,
    User_save, store_call, throw, set_Users, ret.
  repeat match goal with
         | |- context [if ?b then _ else _] => destruct b eqn:?; simpl
         | |- context [match ?o with Some _ => _ | None => _ end] =>
             destruct o eqn:?; simpl
         | |- context [let (_, _) := ?p in _] => is_var p; destruct p; simpl
         end; done.
Qed.

Lemma on_SIGINT_presence env w :
  let w' := run (on_SIGINT env) w in
  connectedUsers w' = connectedUsers w /\ no_new_online w w'.
Proof.
  destruct (sweep_spec env (connectedUsers w) 0 w)
    as (l & Hok & _ & Hc & _ & _ & _ & _ & Hno & _).
  unfold run, on_SIGINT, bind, get_world, store_call, effect, throw in *.
  simpl.
  destruct (sweep env 0 (connectedUsers w) w) as [[[]|e] w1];
    [|discriminate]. simpl in *.
  destruct (store_fails env OpClose); simpl; done.
Qed.

(** Every transition but the REST login is one of the three presence
    steps. *)
Lemma handle_presence env i w :
  ~ is_login i -> PresenceStep w (run (handle env i) w).
Proof.
  intros Hi. destruct i as [sid|sid token|sid data|sid|n m p|n p|a r c|];
    simpl handle.
  - apply PresenceQuiet; [done|by apply no_new_online_same].
  - destruct (on_authenticate_cases env sid token w)
      as [_ [(_ & Hu & Hc & _)|(uid & u & _ & _ & _ & Hu & Hu' & Hc & _)]].
    + apply PresenceQuiet; [done|by apply no_new_online_same].
    + by eapply PresenceEnter.
  - send_cases env sid data w Heq; rewrite Heq;
      (apply PresenceQuiet; [done|by apply no_new_online_same]).
  - destruct (run_then_set_sockets (on_disconnect env sid)
                (fun ss => delete sid ss) w) as (Hu & _ & Hc & _).
    pose proof (on_disconnect_cases env sid w) as Hd. cbn zeta in Hd.
    destruct (socket_userId (the_socket sid w)) as [uid|].
    2: { apply PresenceQuiet; [congruence|apply no_new_online_same; congruence]. }
    destruct (store_fails env (OpFindById uid)).
    { apply PresenceQuiet; [congruence|apply no_new_online_same; congruence]. }
    destruct Hd as (_ & _ & Hd).
    destruct (Users w !! uid) as [u|] eqn:Huid.
    + destruct (store_fails env (OpSaveUser uid)).
      { apply PresenceQuiet; [congruence|apply no_new_online_same; congruence]. }
      destruct Hd as (Hu' & Hc' & _).
      apply (PresenceLeave _ _ uid); [congruence| |].
      * intros id Hne. rewrite Hu, Hu'. by rewrite lookup_insert_ne.
      * intros u'. rewrite Hu, Hu', lookup_insert_eq. by intros [= <-].
    + destruct Hd as (Hu' & Hc' & _).
      apply (PresenceLeave _ _ uid); [congruence| |].
      * intros id _. by rewrite Hu, Hu'.
      * intros u'. rewrite Hu, Hu', Huid. done.
  - destruct (post_register_presence env n m p w). by apply PresenceQuiet.
  - by destruct Hi.
  - post_cases env a r c w Heq; rewrite Heq;
      (apply PresenceQuiet; [done|by apply no_new_online_same]).
  - destruct (on_SIGINT_presence env w). by apply PresenceQuiet.
Qed.

Lemma presence_step_invariant w w' :
  PresenceStep w w' ->
  online_implies_registered w -> online_implies_registered w'.
Proof.
  unfold online_implies_registered, registered.
  intros [Hc Hno|uid u t entry Hu Hu' Hc|uid Hc Hfr Hoff] Hinv id u' H1 H2;
    rewrite Hc.
  - destruct (Hno id u' H1 H2) as (u0 & ? & ?). by apply (Hinv id u0).
  - destruct (decide (id = uid)) as [->|Hne].
    + by rewrite Map_get_set_eq.
    + rewrite Map_get_set_ne by done.
      rewrite Hu', lookup_insert_ne in H1 by done. by apply (Hinv id u').
  - destruct (decide (id = uid)) as [->|Hne].
    + rewrite (Hoff u' H1) in H2. discriminate.
    + rewrite Map_get_delete_ne by done.
      rewrite Hfr in H1 by done. by apply (Hinv id u').
Qed.

Lemma presence_step_NoDup w w' :
  PresenceStep w w' ->
  NoDup (Map_keys (connectedUsers w)) -> NoDup (Map_keys (connectedUsers w')).
Proof.
  intros [Hc _|uid u t entry _ _ Hc|uid Hc _ _] Hnd; rewrite Hc;
    [done|by apply Map_set_NoDup|by apply Map_delete_NoDup].
Qed.

Lemma handle_NoDup env i w :
  NoDup (Map_keys (connectedUsers w)) ->
  NoDup (Map_keys (connectedUsers (run (handle env i) w))).
Proof.
  intros Hnd.
  destruct i as [sid|sid token|sid data|sid|n m p|n p|a r c|];
    try (apply (presence_step_NoDup w); [|done]; apply handle_presence;
         simpl; tauto).
  simpl. by rewrite post_login_registry.
Qed.

(** At most one registry entry per user, in every world the server gets
    to. *)
Lemma reachable_NoDup allowed w :
  reachable allowed w -> NoDup (Map_keys (connectedUsers w)).
Proof.
  induction 1 as [w (Hc & _)|w env i _ IH _ _].
  - rewrite Hc. apply NoDup_nil_2.
  - by apply handle_NoDup.
Qed.

Section Presence.

Import Sample.

Lemma boot_initial : initial boot.
Proof.
  repeat split. intros id u. unfold boot; simpl.
  destruct (decide (id = u1)) as [->|H1];
    [rewrite lookup_insert_eq; by intros [= <-]|].
  rewrite lookup_insert_ne by done.
  destruct (decide (id = u2)) as [->|H2];
    [rewrite lookup_insert_eq; by intros [= <-]|].
  rewrite lookup_insert_ne by done. by rewrite lookup_empty.
Qed.

(** Builds [reachable] for a world given as nested [run (handle _ _) _]
    over [boot]. *)
Ltac reach :=
  repeat (apply reachable_step;
          [ | first [exact I | simpl; tauto]
            | split; [reflexivity | vm_compute; first [reflexivity | eauto]] ]);
  apply reachable_initial, boot_initial.

(** C2, as stated, fails three times.  Right after start a REST login with
    Alice's credentials stores her as online while the registry is empty.
    Without any login, a registry entry need not be live: socket [a]
    authenticates as Alice, then as Bob, then closes; the disconnect handler
    cleans up after Bob, and Alice stays stored online under an entry whose
    socket is gone.  And inside a handshake the store is written first:
    where [await user.save()] resumes, Alice is stored online and the
    registry is still empty. *)
Lemma C2_presence_and_registry_diverge :
  let logged_in := run (handle env_ok (Login (str "alice") (str "secret"))) boot in
  let saved := run (authenticate_until_saved env_ok "a" (str "tok-u1")) connected in
  (reachable (fun _ => True) logged_in
   /\ emitted (post_login env_ok (str "alice") (str "secret")) boot
      = [WriteUser u1 (with_presence alice true 1000);
         HttpReply 200 "Login successful"]
   /\ Users logged_in !! u1 = Some (with_presence alice true 1000)
   /\ connectedUsers logged_in = []
   /\ ~ online_implies_registered logged_in)
  /\ (reachable (fun i => ~ is_login i) reauthenticated
      /\ Users reauthenticated !! u1 = Some (with_presence alice true 1000)
      /\ connectedUsers reauthenticated = [(u1, mkConn "a" (str "alice"))]
      /\ sockets reauthenticated !! "a" = None
      /\ ~ live_entry u1 reauthenticated)
  /\ (reachable (fun i => ~ is_login i) connected
      /\ fst (authenticate_until_saved env_ok "a" (str "tok-u1") connected)
         = Ok (Some (u1, alice))
      /\ Users saved !! u1 = Some (with_presence alice true 1000)
      /\ connectedUsers saved = []
      /\ ~ online_implies_registered saved
      /\ run (authenticate_after_saved "a" (Some (u1, alice))) saved
         = run (on_authenticate env_ok "a" (str "tok-u1")) connected).
Proof.
  assert (Hnot : forall w, Users w !! u1 = Some (with_presence alice true 1000) ->
                           connectedUsers w = [] ->
                           ~ online_implies_registered w).
  { intros w Hu Hc H. destruct (H u1 _ Hu eq_refl) as [e He].
    rewrite Hc in He. discriminate. }
  split; [|split].
  - split; [reach|]. do 3 (split; [reflexivity|]). by apply Hnot.
  - split; [unfold reauthenticated; reach|]. do 3 (split; [reflexivity|]).
    intros (entry & He & Hs). injection He as <-. by destruct Hs.
  - split; [unfold connected; reach|]. do 3 (split; [reflexivity|]).
    split; [by apply Hnot|]. reflexivity.
Qed.

(** C2, amended: in every state between two handler runs, when handler runs
    do not overlap, from a start where nobody is stored online and nobody is
    connected, and as long as the REST login is not called, whoever is
    stored online has a registry entry; the entry may be stale.  (The REST
    login does write [isOnline] and [lastSeen]; so do the handshake, the
    disconnect handler and the shutdown sweep.) *)
Theorem C2_online_implies_registered_without_login w :
  reachable (fun i => ~ is_login i) w -> online_implies_registered w.
Proof.
  induction 1 as [w (_ & _ & _ & Hoff)|w env i _ IH Hi _].
  - intros id u Hu Ho. rewrite (Hoff id u Hu) in Ho. discriminate.
  - apply (presence_step_invariant w); [|done]. by apply handle_presence.
Qed.

Lemma C2_online_implies_registered_without_login_witness :
  online_implies_registered
    (run (handle env_ok (Authenticate "a" (str "tok-u1")))
         (run (handle env_ok (Connection "a")) boot)).
Proof.
  apply C2_online_implies_registered_without_login. reach.
Defined.

(** C7, as stated, fails: Alice authenticated on socket [a] and then on
    socket [a2], so her entry holds the handle [a2] and no entry holds [a];
    the disconnect of [a] removes her entry all the same. *)
Lemma C7_disconnect_evicts_other_handle :
  connectedUsers two_sessions = [(u1, mkConn "a2" (str "alice"))]
  /\ connectedUsers (run (on_disconnect env_ok "a") two_sessions) = [].
Proof. split; reflexivity. Qed.

(** C7, amended: the registry has at most one entry per user in every
    world the server gets to; a disconnect of a socket whose [userId] is
    [uid], when its store calls go through, removes the entry under key
    [uid] whichever handle it holds, leaves the other entries alone, and
    leaves the registry as it is when there is no entry under [uid]. *)
Theorem C7_eviction_by_user_key allowed env sid uid w :
  reachable allowed w ->
  socket_userId (the_socket sid w) = Some uid ->
  store_fails env (OpFindById uid) = false ->
  store_fails env (OpSaveUser uid) = false ->
  let w' := run (on_disconnect env sid) w in
  NoDup (Map_keys (connectedUsers w))
  /\ connectedUsers w' = Map_delete uid (connectedUsers w)
  /\ Map_get uid (connectedUsers w') = None
  /\ (forall k, k <> uid ->
        Map_get k (connectedUsers w') = Map_get k (connectedUsers w))
  /\ (Map_get uid (connectedUsers w) = None ->
      connectedUsers w' = connectedUsers w).
Proof.
  intros Hreach Hu Hf Hs w'. subst w'.
  pose proof (reachable_NoDup _ _ Hreach) as Hnd.
  pose proof (on_disconnect_cases env sid w) as Hd. cbn zeta in Hd.
  rewrite Hu, Hf in Hd. destruct Hd as (_ & _ & Hd).
  assert (Hc : connectedUsers (run (on_disconnect env sid) w)
               = Map_delete uid (connectedUsers w)).
  { destruct (Users w !! uid); [rewrite Hs in Hd|]; by destruct Hd as (_ & ? & _). }
  rewrite Hc. split; [done|]. split; [done|].
  split; [by apply Map_get_delete_eq|].
  split; [intros k Hk; by apply Map_get_delete_ne|].
  apply Map_delete_absent.
Qed.

Lemma C7_eviction_by_user_key_witness :
  let w := run (handle env_ok (Authenticate "a" (str "tok-u1")))
               (run (handle env_ok (Connection "a")) boot) in
  let w' := run (on_disconnect env_ok "a") w in
  NoDup (Map_keys (connectedUsers w))
  /\ connectedUsers w' = Map_delete u1 (connectedUsers w)
  /\ Map_get u1 (connectedUsers w') = None
  /\ (forall k, k <> u1 ->
        Map_get k (connectedUsers w') = Map_get k (connectedUsers w))
  /\ (Map_get u1 (connectedUsers w) = None ->
      connectedUsers w' = connectedUsers w).
Proof.
  apply (C7_eviction_by_user_key (fun _ => True) env_ok "a" u1);
    [reach|reflexivity|reflexivity|reflexivity].
Defined.

(** C10 on the code: socket [c] only ever got [authentication-error] (the
    save of Alice's document failed during its handshake), yet when it
    disconnects the handler stores Alice as offline, removes her registry
    entry, which belongs to socket [a], and broadcasts [user-offline]. *)
Lemma C10_disconnect_after_failed_handshake :
  let w := failed_handshake in
  let w' := run (on_disconnect env_ok "c") w in
  emitted (on_authenticate env_save_fails "c" (str "tok-u1")) before_handshake
  = [SocketEmit "c" (authentication_error "Invalid token")]
  /\ connectedUsers w = [(u1, mkConn "a" (str "alice"))]
  /\ Users w !! u1 = Some (with_presence alice true 1000)
  /\ emitted (on_disconnect env_ok "c") w
     = [WriteUser u1 (with_presence alice false 1000);
        BroadcastEmit "c" (user_offline u1 (Some (str "alice")))]
  /\ connectedUsers w' = []
  /\ Users w' !! u1 = Some (with_presence alice false 1000).
Proof. repeat split; reflexivity. Qed.

End Presence.

(** * Further properties of the server *)

(** ** Strings *)

Lemma trim_start_split s :
  exists ws, s = ws ++ trim_start s /\ forallb js_whitespace ws = true.
Proof.
  induction s as [|c s (ws & Hs & Hws)]; simpl.
  - by exists [].
  - destruct (js_whitespace c) eqn:Hc.
    + exists (c :: ws). simpl. rewrite Hc, Hws. by rewrite <- Hs.
    + by exists [].
Qed.

Lemma trim_start_head s c :
  head (trim_start s) = Some c -> js_whitespace c = false.
Proof.
  induction s as [|c' s IH]; simpl; [done|].
  destruct (js_whitespace c') eqn:Hc; [done|]. simpl. by intros [= <-].
Qed.

Lemma trim_start_fixed s :
  (forall c, head s = Some c -> js_whitespace c = false) -> trim_start s = s.
Proof. destruct s as [|c s]; simpl; [done|]. intros H. by rewrite (H c). Qed.

Lemma head_rev {A} (l : list A) : head (rev l) = last l.
Proof.
  induction l as [|x l IH] using rev_ind; [done|].
  rewrite rev_app_distr. simpl. by rewrite last_snoc.
Qed.

Lemma last_rev {A} (l : list A) : last (rev l) = head l.
Proof. rewrite <- (rev_involutive l) at 2. by rewrite head_rev. Qed.

Lemma trim_end_split s :
  exists ws, s = trim_end s ++ ws /\ forallb js_whitespace ws = true.
Proof.
  unfold trim_end. destruct (trim_start_split (rev s)) as (ws & Hs & Hws).
  exists (rev ws). split.
  - rewrite <- rev_app_distr, <- Hs. by rewrite rev_involutive.
  - rewrite forallb_forall in *. intros x Hx. apply Hws. by apply in_rev.
Qed.

Lemma trim_end_last s c :
  last (trim_end s) = Some c -> js_whitespace c = false.
Proof. unfold trim_end. rewrite last_rev. apply trim_start_head. Qed.

Lemma trim_end_head s c :
  head (trim_end s) = Some c -> head s = Some c.
Proof.
  destruct (trim_end_split s) as (ws & Hs & _). intros H.
  rewrite Hs. by destruct (trim_end s).
Qed.

Lemma trim_end_fixed s :
  (forall c, last s = Some c -> js_whitespace c = false) -> trim_end s = s.
Proof.
  intros H. unfold trim_end. rewrite trim_start_fixed.
  - apply rev_involutive.
  - intros c. rewrite head_rev. apply H.
Qed.

(** [trim] leaves no whitespace at either end. *)
Lemma trim_trimmed s : trimmed (trim s).
Proof.
  unfold trim. split; intros c Hc.
  - apply trim_end_head in Hc. by apply (trim_start_head s).
  - by apply (trim_end_last (trim_start s)).
Qed.

Lemma trim_fixed s : trimmed s -> trim s = s.
Proof.
  intros [Hh Hl]. unfold trim. rewrite (trim_start_fixed s Hh).
  by apply trim_end_fixed.
Qed.

Lemma trim_idempotent s : trim (trim s) = trim s.
Proof. apply trim_fixed, trim_trimmed. Qed.

Lemma trim_length s : (length (trim s) <= length s)%nat.
Proof.
  unfold trim.
  destruct (trim_start_split s) as (ws & Hs & _).
  destruct (trim_end_split (trim_start s)) as (ws' & Hs' & _).
  rewrite Hs at 2. rewrite Hs' at 2. rewrite !length_app. lia.
Qed.

Lemma split_on_no_sep sep s : forall cur,
  sep ∉ s -> split_on sep s cur = [rev cur ++ s].
Proof.
  induction s as [|c s IH]; intros cur Hs; simpl.
  - by rewrite app_nil_r.
  - apply not_elem_of_cons in Hs as [Hc Hs].
    destruct (N.eqb_spec c sep) as [->|_]; [done|].
    rewrite IH by done. simpl. by rewrite <- app_assoc.
Qed.

Lemma split_on_first sep pre rest : forall cur,
  sep ∉ pre ->
  split_on sep (pre ++ sep :: rest) cur
  = (rev cur ++ pre) :: split_on sep rest [].
Proof.
  induction pre as [|c pre IH]; intros cur Hp; simpl.
  - rewrite N.eqb_refl. by rewrite app_nil_r.
  - apply not_elem_of_cons in Hp as [Hc Hp].
    destruct (N.eqb_spec c sep) as [->|_]; [done|].
    rewrite IH by done. simpl. by rewrite <- app_assoc.
Qed.

(** ** The REST authentication middleware *)

Section Middleware.

Import Sample.

(** X1: with the header [Bearer <token>] the client sends, for a token
    that is not empty and has no space in it, the middleware hands exactly
    this token to the verifier: the route runs with the decoded user when
    it verifies, and the reply is 403 'Invalid token' when it does not. *)
Theorem authenticateToken_bearer env token next w :
  token <> [] -> 32%N ∉ token ->
  authenticateToken env (Some (str "Bearer " ++ token)) next w
  = match jwt_verify env token with
    | JwtDecoded uid => next uid w
    | JwtThrows _ => reply 403 "Invalid token" w
    end.
Proof.
  intros Hne Hsp. unfold authenticateToken.
  change (str "Bearer " ++ token)
    with (str "Bearer" ++ 32%N :: token).
  rewrite (split_on_first 32 (str "Bearer") token []).
  2: { vm_compute. intros H. repeat (apply elem_of_cons in H as [H|H];
         [discriminate|]). by apply elem_of_nil in H. }
  rewrite split_on_no_sep by done. simpl.
  destruct token; [done|]. simpl. by destruct (jwt_verify env _).
Qed.

Lemma authenticateToken_bearer_witness :
  authenticateToken env_ok (Some (str "Bearer " ++ str "tok-u1"))
    (fun uid => reply 200 "ok") boot
  = match jwt_verify env_ok (str "tok-u1") with
    | JwtDecoded uid => reply 200 "ok" boot
    | JwtThrows _ => reply 403 "Invalid token" boot
    end.
Proof.
  apply (authenticateToken_bearer env_ok (str "tok-u1")).
  - discriminate.
  - vm_compute. intros H. repeat (apply elem_of_cons in H as [H|H];
      [discriminate|]). by apply elem_of_nil in H.
Defined.

(** X2: whatever the [Authorization] header, the middleware either
    replies 401 or 403 and stops, or runs the route with a user identifier
    the verifier decoded from some token; with no header, or a header with
    no space in it, the reply is 401 'Access token required'. *)
Theorem authenticateToken_gate env authorization next w :
  (authenticateToken env authorization next w
   = reply 401 "Access token required" w
   \/ authenticateToken env authorization next w
      = reply 403 "Invalid token" w
   \/ exists token uid,
        jwt_verify env token = JwtDecoded uid
        /\ authenticateToken env authorization next w = next uid w)
  /\ (match authorization with
      | None => True
      | Some h => 32%N ∉ h
      end ->
      authenticateToken env authorization next w
      = reply 401 "Access token required" w).
Proof.
  unfold authenticateToken. split.
  - destruct authorization as [h|]; [|by left].
    destruct (split_on 32 h [] !! 1%nat) as [token|]; [|by left].
    destruct (js_truthy (JStr token)); [|by left].
    destruct (jwt_verify env token) as [uid|e] eqn:Hj.
    + right; right. by exists token, uid.
    + right; by left.
  - destruct authorization as [h|]; [|done]. intros Hh.
    by rewrite split_on_no_sep.
Qed.

Lemma authenticateToken_gate_witness :
  authenticateToken env_ok (Some (str "tok-u1")) (fun uid => reply 200 "ok")
    boot
  = reply 401 "Access token required" boot.
Proof.
  apply (authenticateToken_gate env_ok (Some (str "tok-u1"))).
  vm_compute. intros H. repeat (apply elem_of_cons in H as [H|H];
    [discriminate|]). by apply elem_of_nil in H.
Defined.

End Middleware.

(** ** Typing relay *)

Section Typing.

Import Sample.

(** X3: a [typing] or [stop-typing] event from a socket without [userId],
    whatever its payload (even none), or with a payload whose [receiverId]
    is missing or falsy, is dropped: nothing is emitted and nothing is
    thrown. *)
Theorem typing_silently_ignored socket data :
  socket_userId socket = None
  \/ (exists r c mt, data = PFields r c mt /\ js_truthy r = false) ->
  on_typing socket data = Ok None /\ on_stop_typing socket data = Ok None.
Proof.
  unfold on_typing, on_stop_typing.
  intros [->|(r & c & mt & -> & Hr)]; [done|].
  rewrite Hr. by destruct (socket_userId socket).
Qed.

Lemma typing_silently_ignored_witness :
  on_typing new_socket PNullish = Ok None
  /\ on_stop_typing new_socket PNullish = Ok None.
Proof. apply typing_silently_ignored. left. reflexivity. Defined.

(** X4: what the typing relay emits names the sending socket's own
    [userId] and [username] and goes to the room of the payload's
    [receiverId]; [typing] and [stop-typing] emit the same event up to the
    [isTyping] flag, true for the first and false for the second. *)
Theorem typing_carries_own_identity socket data ev :
  on_typing socket data = Ok (Some ev) ->
  exists r c mt,
    data = PFields r c mt
    /\ socket_userId socket = Some (typing_userId ev)
    /\ typing_username ev = sock_username socket
    /\ typing_room ev = user_room r
    /\ isTyping ev = true
    /\ on_stop_typing socket data
       = Ok (Some (mkTyping (typing_room ev) (typing_userId ev)
                            (typing_username ev) false)).
Proof.
  unfold on_typing, on_stop_typing.
  destruct (socket_userId socket) as [uid|]; [|discriminate].
  destruct data as [|r c mt]; [discriminate|].
  destruct (js_truthy r); [|discriminate].
  destruct (js_to_string r); [|discriminate].
  intros [= <-]. by exists r, c, mt.
Qed.

Lemma typing_carries_own_identity_witness :
  let socket := the_socket "a" both_online in
  let data := PFields (JStr u2) JUndefined JUndefined in
  let ev := mkTyping (user_room (JStr u2)) u1 (Some (str "alice")) true in
  exists r c mt,
    data = PFields r c mt
    /\ socket_userId socket = Some (typing_userId ev)
    /\ typing_username ev = sock_username socket
    /\ typing_room ev = user_room r
    /\ isTyping ev = true
    /\ on_stop_typing socket data
       = Ok (Some (mkTyping (typing_room ev) (typing_userId ev)
                            (typing_username ev) false)).
Proof.
  intros socket data ev.
  apply (typing_carries_own_identity socket data ev). reflexivity.
Defined.

(** X5: the typing handlers have no [try/catch]; they throw, a
    [TypeError], on a socket that carries a [userId] in two cases and in no
    other: a [null] or [undefined] payload (reading [data.receiverId]
    throws), and a truthy [receiverId] that cannot be converted to a string
    (building the room name throws).  [stop-typing] throws exactly when
    [typing] does. *)
Theorem typing_throws_only_on_bad_payload socket data e :
  (on_typing socket data = Throw e <->
   e = TypeError
   /\ (exists uid, socket_userId socket = Some uid)
   /\ (data = PNullish
       \/ exists r c mt, data = PFields r c mt /\ js_truthy r = true
                         /\ js_to_string r = None))
  /\ (on_stop_typing socket data = Throw e <-> on_typing socket data = Throw e).
Proof.
  unfold on_typing, on_stop_typing. split; [split|].
  - destruct (socket_userId socket) as [uid|]; [|discriminate].
    destruct data as [|r c mt].
    + intros [= <-]. eauto.
    + destruct (js_truthy r) eqn:Hr; [|discriminate].
      destruct (js_to_string r) eqn:Hs; [discriminate|].
      intros [= <-]. split; [done|]. split; [by eexists|].
      right. by exists r, c, mt.
  - intros (-> & (uid & ->) & [->|(r & c & mt & -> & Hr & Hs)]); [done|].
    by rewrite Hr, Hs.
  - destruct (socket_userId socket) as [uid|]; [|done].
    destruct data as [|r c mt]; [done|].
    destruct (js_truthy r); [|done].
    by destruct (js_to_string r).
Qed.

End Typing.

(** ** More on sending *)

Lemma bearer_token_split token :
  token <> [] -> 32%N ∉ token ->
  split_on 32 (str "Bearer " ++ token) [] !! 1%nat = Some token.
Proof.
  intros Hne Hsp.
  change (str "Bearer " ++ token) with (str "Bearer" ++ 32%N :: token).
  rewrite (split_on_first 32 (str "Bearer") token []).
  2: { vm_compute. intros H. repeat (apply elem_of_cons in H as [H|H];
         [discriminate|]). by apply elem_of_nil in H. }
  by rewrite split_on_no_sep.
Qed.

Lemma on_send_message_accepted env sid uid r c mt rid text w :
  socket_userId (the_socket sid w) = Some uid ->
  send_accepted env r c mt rid text ->
  run (on_send_message env sid (PFields r c mt)) w
  = add_message w (stored_message env uid rid text)
      (match js_to_string r with
       | Some _ =>
           send_effects sid r (populated w (stored_message env uid rid text))
       | None =>
           [WriteMessage (stored_message env uid rid text);
            SocketEmit sid (error "Failed to send message")]
       end).
Proof.
  intros Hu (Hr & (s & -> & ->) & Ht & Hl & Hmt & Hc & Hf & Hps & Hpr).
  unfold run, on_send_message, try_catch, bind, get_socket; simpl.
  rewrite Hu, Hr. simpl.
  assert (Hs : bool_decide (s = []) = false).
  { apply bool_decide_eq_false. intros ->. by apply Ht. }
  rewrite Hs. unfold js_trim, ret. simpl.
  rewrite (bool_decide_eq_false_2 _ Ht). simpl.
  assert (Hm : js_strict_neq_text
                 match mt with JUndefined => JStr (str "text") | _ => mt end
               = false) by (destruct Hmt as [->| ->]; done).
  rewrite Hm.
  unfold persist_and_populate, bind, Message_save, new_Message,
    Message_validate. simpl. rewrite Hc.
  rewrite (bool_decide_eq_false_2 _ Ht).
  apply Nat.ltb_ge in Hl. rewrite Hl. simpl.
  unfold store_call, populate, store_call, throw, set_Messages, effect, bind,
    ret, socket_emit, io_to_emit, effect.
  rewrite Hf. simpl. rewrite Hps. simpl. rewrite Hpr. simpl.
  unfold room_of, ret, throw.
  destruct (js_to_string r); simpl;
    unfold add_message, send_effects, populated; simpl;
    by rewrite <- !app_assoc.
Qed.

Lemma add_message_socket sid w m l :
  the_socket sid (add_message w m l) = the_socket sid w.
Proof. done. Qed.

Section MoreSending.

Import Sample.

(** X7: there is no deduplication: two accepted sends of the same payload
    from the same socket, one after the other, store two messages, in
    that order. *)
Theorem identical_sends_store_two env env' sid uid r c mt rid rid' text w :
  socket_userId (the_socket sid w) = Some uid ->
  send_accepted env r c mt rid text ->
  send_accepted env' r c mt rid' text ->
  Messages (run (on_send_message env' sid (PFields r c mt))
                (run (on_send_message env sid (PFields r c mt)) w))
  = Messages w ++ [stored_message env uid rid text;
                   stored_message env' uid rid' text].
Proof.
  intros Hu Hacc Hacc'.
  rewrite (on_send_message_accepted env sid uid r c mt rid text w Hu Hacc).
  rewrite (on_send_message_accepted env' sid uid r c mt rid' text); [|done|done].
  simpl. by rewrite <- app_assoc.
Qed.

Lemma identical_sends_store_two_witness :
  Messages (run (on_send_message env_ok "a" hello)
                (run (on_send_message env_ok "a" hello) both_online))
  = Messages both_online ++ [stored_message env_ok u1 u2 (str "hello");
                             stored_message env_ok u1 u2 (str "hello")].
Proof.
  apply (identical_sends_store_two env_ok env_ok "a" u1 (JStr u2)
           (JStr (str "hello")) JUndefined u2 u2 (str "hello") both_online).
  - reflexivity.
  - repeat split; try reflexivity; try discriminate;
      [by exists (str "hello")|vm_compute; lia|by left].
  - repeat split; try reflexivity; try discriminate;
      [by exists (str "hello")|vm_compute; lia|by left].
Defined.

(** X8: whatever either send handler stores is a well-formed message of
    the authenticated sender: the identifier and both timestamps are the
    server's, the sender is the socket's [userId] (the token's user over
    REST), the type is 'text', [delivered] and [read] are false, and the
    content is non-empty, at most 1000 code units long and has no
    whitespace at either end. *)
Theorem stored_messages_are_well_formed env sid data authorization r c w m :
  (m ∈ Messages (run (on_send_message env sid data) w) ->
   m ∈ Messages w
   \/ exists uid, socket_userId (the_socket sid w) = Some uid
                  /\ well_formed_message env uid m)
  /\ (m ∈ Messages (run (post_messages env authorization r c) w) ->
      m ∈ Messages w
      \/ exists token uid, jwt_verify env token = JwtDecoded uid
                           /\ well_formed_message env uid m).
Proof.
  split; intros Hin.
  - send_cases env sid data w Heq; rewrite Heq in Hin; simpl in Hin;
      [by left| |];
      (apply elem_of_app in Hin as [Hin|Hin]; [by left|];
       apply list_elem_of_singleton in Hin as ->; right; exists uid;
       split; [done|];
       unfold well_formed_message, stored_message; simpl;
       repeat split; try done; apply trim_trimmed).
  - post_cases env authorization r c w Heq; rewrite Heq in Hin; simpl in Hin;
      [by left| |];
      (apply elem_of_app in Hin as [Hin|Hin]; [by left|];
       apply list_elem_of_singleton in Hin as ->; right; exists token, uid;
       split; [done|];
       unfold well_formed_message, stored_message; simpl;
       repeat split; try done; apply trim_trimmed).
Qed.

Lemma stored_messages_are_well_formed_witness :
  stored_message env_ok u1 u2 (str "hello") ∈ Messages both_online
  \/ exists uid, socket_userId (the_socket "a" both_online) = Some uid
                 /\ well_formed_message env_ok uid
                      (stored_message env_ok u1 u2 (str "hello")).
Proof.
  apply (stored_messages_are_well_formed env_ok "a" hello None JUndefined
           JUndefined both_online).
  vm_compute. apply list_elem_of_here.
Defined.

(** X9: neither send handler touches presence: in every outcome the
    users, the registry and the sockets are as before, and at most one
    message is appended to the stored ones. *)
Theorem send_leaves_presence_alone env sid data authorization r c w :
  let w1 := run (on_send_message env sid data) w in
  let w2 := run (post_messages env authorization r c) w in
  (Users w1 = Users w /\ connectedUsers w1 = connectedUsers w
   /\ sockets w1 = sockets w
   /\ exists l, Messages w1 = Messages w ++ l /\ (length l <= 1)%nat)
  /\ (Users w2 = Users w /\ connectedUsers w2 = connectedUsers w
      /\ sockets w2 = sockets w
      /\ exists l, Messages w2 = Messages w ++ l /\ (length l <= 1)%nat).
Proof.
  cbn zeta. split.
  - send_cases env sid data w Heq; rewrite Heq;
      unfold add_log, add_message; simpl;
      (split; [done|]; split; [done|]; split; [done|]);
      first [ exists []; split; [by rewrite app_nil_r | simpl; lia]
            | eexists [_]; split; [reflexivity | simpl; lia] ].
  - post_cases env authorization r c w Heq; rewrite Heq;
      unfold add_log, add_message; simpl;
      (split; [done|]; split; [done|]; split; [done|]);
      first [ exists []; split; [by rewrite app_nil_r | simpl; lia]
            | eexists [_]; split; [reflexivity | simpl; lia] ].
Qed.

End MoreSending.

Section TwoPaths.

Import Sample.

(** X10: the REST route and the socket event store alike.  When the
    middleware lets a request through as the user a socket carries, and the
    socket payload's [messageType] is absent or 'text', the same fields
    [receiverId] and [content] lead both handlers to store the same
    messages and to emit the same [receive-message] events. *)
Theorem rest_and_socket_store_alike env sid authorization uid r c mt w :
  socket_userId (the_socket sid w) = Some uid ->
  (forall next w0, authenticateToken env authorization next w0 = next uid w0) ->
  mt = JUndefined \/ mt = JStr (str "text") ->
  Messages (run (on_send_message env sid (PFields r c mt)) w)
  = Messages (run (post_messages env authorization r c) w)
  /\ forall room pm,
       RoomEmit room (receive_message pm)
         ∈ emitted (on_send_message env sid (PFields r c mt)) w
       <-> RoomEmit room (receive_message pm)
             ∈ emitted (post_messages env authorization r c) w.
Proof.
  intros Hu Hauth Hmt.
  assert (Hm : js_strict_neq_text
                 match mt with JUndefined => JStr (str "text") | _ => mt end
               = false) by (destruct Hmt as [->| ->]; done).
  unfold emitted, run, on_send_message, post_messages.
  rewrite Hauth.
  unfold try_catch, bind, get_socket, reply, socket_emit, io_to_emit, effect,
    throw, ret; simpl.
  rewrite Hu.
  assert (Hone : forall (a b : Effect) room pm,
             RoomEmit room (receive_message pm) ∈ [a] <->
             RoomEmit room (receive_message pm) ∈ [b] ->
             RoomEmit room (receive_message pm) ∈ drop (length (log w)) (log w ++ [a])
             <-> RoomEmit room (receive_message pm) ∈ drop (length (log w)) (log w ++ [b])).
  { intros a b room pm H. by rewrite !drop_app_length. }
  destruct (js_truthy r); simpl.
  2: { split; [done|]. intros. apply Hone.
       rewrite !list_elem_of_singleton. split; discriminate. }
  destruct (js_truthy c) eqn:Hc; simpl.
  2: { split; [done|]. intros. apply Hone.
       rewrite !list_elem_of_singleton. split; discriminate. }
  destruct c as [| |s|t q|]; simpl;
    try (split; [done|]; intros; apply Hone;
         rewrite !list_elem_of_singleton; split; discriminate).
  destruct (bool_decide (trim s = [])); simpl.
  { split; [done|]. intros. apply Hone.
    rewrite !list_elem_of_singleton. split; discriminate. }
  rewrite Hm.
  unfold persist_and_populate, bind, Message_save, new_Message.
  destruct (Message_validate env _) as [m|]; simpl.
  2: { split; [done|]. intros. apply Hone.
       rewrite !list_elem_of_singleton. split; discriminate. }
  unfold store_call, populate, store_call, throw, set_Messages, effect, bind,
    ret.
  destruct (store_fails env OpSaveMessage); simpl.
  { split; [done|]. intros. apply Hone.
    rewrite !list_elem_of_singleton. split; discriminate. }
  destruct (store_fails env OpPopulateSender); simpl.
  { split; [done|]. intros. rewrite <- !app_assoc, !drop_app_length. simpl.
    rewrite !elem_of_cons, !elem_of_nil.
    split; intros [?|[?|?]]; done. }
  destruct (store_fails env OpPopulateReceiver); simpl.
  { split; [done|]. intros. rewrite <- !app_assoc, !drop_app_length. simpl.
    rewrite !elem_of_cons, !elem_of_nil.
    split; intros [?|[?|?]]; done. }
  unfold room_of, ret, throw.
  destruct (js_to_string r); simpl.
  2: { split; [done|]. intros. rewrite <- !app_assoc, !drop_app_length. simpl.
       rewrite !elem_of_cons, !elem_of_nil.
       split; intros [?|[?|?]]; done. }
  split; [done|]. intros. rewrite <- !app_assoc, !drop_app_length. simpl.
  rewrite !elem_of_cons, !elem_of_nil.
  split.
  - intros [?|[?|[?|?]]]; try done. right; by left.
  - intros [?|[?|[?|[?|?]]]]; try done. right; by left.
Qed.

Lemma rest_and_socket_store_alike_witness :
  Messages (run (on_send_message env_ok "a" hello) both_online)
  = Messages (run (post_messages env_ok (Some (str "Bearer tok-u1"))
                     (JStr u2) (JStr (str "hello"))) both_online)
  /\ forall room pm,
       RoomEmit room (receive_message pm)
         ∈ emitted (on_send_message env_ok "a" hello) both_online
       <-> RoomEmit room (receive_message pm)
             ∈ emitted (post_messages env_ok (Some (str "Bearer tok-u1"))
                          (JStr u2) (JStr (str "hello"))) both_online.
Proof.
  apply (rest_and_socket_store_alike env_ok "a"
           (Some (str "Bearer tok-u1")) u1 (JStr u2) (JStr (str "hello"))
           JUndefined both_online).
  - reflexivity.
  - reflexivity.
  - by left.
Defined.

(** X11: what the client's [sendMessage] emits, with its default type,
    for a selected contact and a connected socket, passes the server's
    checks: on a socket that carries a [userId], when the contact's
    identifier casts, the trimmed text is within the cap and the store
    calls go through, the server stores exactly the text the client
    trimmed. *)
Theorem client_send_is_stored env sid uid contact rid content data w :
  client_sendMessage (Some contact) true content JUndefined = Some data ->
  contact <> [] ->
  socket_userId (the_socket sid w) = Some uid ->
  castObjectId env (JStr contact) = Some rid ->
  (length (trim content) <= 1000)%nat ->
  store_fails env OpSaveMessage = false ->
  store_fails env OpPopulateSender = false ->
  store_fails env OpPopulateReceiver = false ->
  data = PFields (JStr contact) (JStr (trim content)) (JStr (str "text"))
  /\ Messages (run (on_send_message env sid data) w)
     = Messages w ++ [stored_message env uid rid (trim content)].
Proof.
  unfold client_sendMessage. simpl.
  destruct (bool_decide (trim content = [])) eqn:Ht; simpl; [discriminate|].
  apply bool_decide_eq_false in Ht.
  intros [= <-] Hc Hu Hcast Hl Hf Hps Hpr. split; [done|].
  rewrite (on_send_message_accepted env sid uid _ _ _ rid (trim content) w Hu).
  - done.
  - repeat split; try done.
    + simpl. by apply negb_true_iff, bool_decide_eq_false.
    + exists (trim content). by rewrite trim_idempotent.
    + by right.
Qed.

Lemma client_send_is_stored_witness :
  PFields (JStr u2) (JStr (str "hello")) (JStr (str "text"))
  = PFields (JStr u2) (JStr (trim (str "  hello "))) (JStr (str "text"))
  /\ Messages (run (on_send_message env_ok "a"
                      (PFields (JStr u2) (JStr (str "hello"))
                               (JStr (str "text")))) both_online)
     = Messages both_online
       ++ [stored_message env_ok u1 u2 (trim (str "  hello "))].
Proof.
  apply (client_send_is_stored env_ok "a" u1 u2 u2 (str "  hello ")
           (PFields (JStr u2) (JStr (str "hello")) (JStr (str "text")))
           both_online); try reflexivity.
  - discriminate.
  - vm_compute. lia.
Defined.

End TwoPaths.

(** ** More on the handshake and on disconnection *)

Lemma Map_keys_set_present {V} k (v old : V) m :
  Map_get k m = Some old -> Map_keys (Map_set k v m) = Map_keys m.
Proof.
  unfold Map_keys. induction m as [|[k0 v0] m IH]; simpl; [done|].
  destruct (decide (k = k0)) as [->|Hne]; simpl; [done|].
  intros H. f_equal. by apply IH.
Qed.

Lemma Map_delete_set_fresh {V} k (v : V) m :
  Map_get k m = None -> Map_delete k (Map_set k v m) = m.
Proof.
  induction m as [|[k0 v0] m IH]; simpl.
  - by rewrite decide_True.
  - destruct (decide (k = k0)) as [->|Hne]; simpl; [done|].
    rewrite decide_False by done. intros H. by rewrite IH.
Qed.

(** The world a handshake that goes through leaves behind. *)
Lemma on_authenticate_success env sid token uid u w :
  jwt_verify env token = JwtDecoded uid ->
  store_fails env (OpFindById uid) = false ->
  Users w !! uid = Some u ->
  store_fails env (OpSaveUser uid) = false ->
  run (on_authenticate env sid token) w
  = mkWorld
      (<[uid := with_presence u true (Date_now env 0)]> (Users w))
      (Messages w)
      (Map_set uid (mkConn sid (username u)) (connectedUsers w))
      (<[sid := mkSocket (Some uid) (Some (username u))
                  (if decide (user_room (JStr uid) ∈ rooms (the_socket sid w))
                   then rooms (the_socket sid w)
                   else rooms (the_socket sid w) ++ [user_room (JStr uid)])]>
         (sockets w))
      (log w ++ user_write uid u (with_presence u true (Date_now env 0))
             ++ [SocketEmit sid (authenticated uid (username u) (email u));
                 BroadcastEmit sid (user_online uid (username u))]).
Proof.
  intros Hj Hf Hu Hs.
  unfold run, on_authenticate, try_catch, bind, jwt_verify_call,
    User_findById, store_call, throw, ret.
  rewrite Hj. simpl. rewrite Hf. simpl. rewrite Hu.
  unfold socket_identify, socket_join, update_socket, set_sockets, User_save,
    store_call, bind, throw, set_Users, set_connectedUsers, socket_emit,
    socket_broadcast_emit, effect, the_socket.
  cbn [fst snd Users Messages connectedUsers sockets log].
  rewrite Hs. unfold user_write, ret.
  destruct (decide (with_presence u true (Date_now env 0) = u));
    cbn [fst snd Users Messages connectedUsers sockets log];
    rewrite !lookup_insert_eq; cbn [default userId sock_username rooms];
    rewrite insert_insert_eq; by rewrite <- ?app_assoc.
Qed.

Section MoreHandshake.

Import Sample.

(** X12: a handshake that goes through registers the socket under the
    token's user, sets the socket's [userId], joins it to that user's room
    without leaving any room it was in, leaves the user stored with
    [isOnline = true] and [lastSeen] the clock reading, name, mail and
    password kept, touches no other user and no other registry entry, and
    tells the socket [authenticated] and everybody else [user-online].
    Nothing else is emitted.  The user's document is written to the store,
    before the two events, when the save changed it; when the user was
    already stored online with this very clock reading nothing is
    written. *)
Theorem handshake_success env sid token uid u w :
  jwt_verify env token = JwtDecoded uid ->
  store_fails env (OpFindById uid) = false ->
  Users w !! uid = Some u ->
  store_fails env (OpSaveUser uid) = false ->
  let w' := run (on_authenticate env sid token) w in
  exists u',
    Users w' !! uid = Some u'
    /\ isOnline u' = true
    /\ lastSeen u' = Date_now env 0
    /\ same_identity u u'
    /\ Map_get uid (connectedUsers w') = Some (mkConn sid (username u))
    /\ userId (the_socket sid w') = Some uid
    /\ user_room (JStr uid) ∈ rooms (the_socket sid w')
    /\ (forall room, room ∈ rooms (the_socket sid w) ->
                     room ∈ rooms (the_socket sid w'))
    /\ (forall id, id <> uid ->
          Users w' !! id = Users w !! id
          /\ Map_get id (connectedUsers w') = Map_get id (connectedUsers w))
    /\ List.filter is_emission (emitted (on_authenticate env sid token) w)
       = [SocketEmit sid (authenticated uid (username u) (email u));
          BroadcastEmit sid (user_online uid (username u))]
    /\ (forall e, e ∈ emitted (on_authenticate env sid token) w ->
                  is_emission e = false -> e = WriteUser uid u')
    /\ (u' <> u ->
        emitted (on_authenticate env sid token) w
        = [WriteUser uid u';
           SocketEmit sid (authenticated uid (username u) (email u));
           BroadcastEmit sid (user_online uid (username u))])
    /\ (u' = u ->
        emitted (on_authenticate env sid token) w
        = [SocketEmit sid (authenticated uid (username u) (email u));
           BroadcastEmit sid (user_online uid (username u))])
    /\ receives w' sid (BroadcastEmit sid (user_online uid (username u)))
       = false.
Proof.
  intros Hj Hf Hu Hs w'. subst w'. unfold emitted.
  rewrite (on_authenticate_success env sid token uid u w Hj Hf Hu Hs).
  exists (with_presence u true (Date_now env 0)).
  unfold the_socket, receives. cbn [Users connectedUsers sockets log].
  rewrite !lookup_insert_eq. cbn [default userId rooms].
  rewrite drop_app_length.
  split; [done|].
  split; [done|]. split; [done|]. split; [done|].
  split; [apply Map_get_set_eq|]. split; [done|].
  split; [case_decide; [done|apply elem_of_app; right; apply list_elem_of_here]|].
  split; [intros room Hr; case_decide; [done|apply elem_of_app; by left]|].
  split; [intros id Hne; split;
          [by rewrite lookup_insert_ne|by apply Map_get_set_ne]|].
  unfold user_write.
  destruct (decide (with_presence u true (Date_now env 0) = u)) as [Hsame|Hmod];
    cbn [app List.filter is_emission].
  all: split; [done|].
  all: split;
    [intros e He Hem;
     repeat (apply elem_of_cons in He as [->|He]; [done || discriminate|]);
     by apply elem_of_nil in He|].
  all: split; [done|]; split; [done|].
  all: rewrite (bool_decide_eq_true_2 (sid = sid)) by done.
  all: apply andb_false_r.
Qed.

Lemma handshake_success_witness :
  let w' := run (on_authenticate env_ok "a" (str "tok-u1")) connected in
  exists u',
    Users w' !! u1 = Some u'
    /\ isOnline u' = true
    /\ lastSeen u' = Date_now env_ok 0
    /\ same_identity alice u'
    /\ Map_get u1 (connectedUsers w') = Some (mkConn "a" (username alice))
    /\ userId (the_socket "a" w') = Some u1
    /\ user_room (JStr u1) ∈ rooms (the_socket "a" w')
    /\ (forall room, room ∈ rooms (the_socket "a" connected) ->
                     room ∈ rooms (the_socket "a" w'))
    /\ (forall id, id <> u1 ->
          Users w' !! id = Users connected !! id
          /\ Map_get id (connectedUsers w')
             = Map_get id (connectedUsers connected))
    /\ List.filter is_emission
         (emitted (on_authenticate env_ok "a" (str "tok-u1")) connected)
       = [SocketEmit "a" (authenticated u1 (username alice) (email alice));
          BroadcastEmit "a" (user_online u1 (username alice))]
    /\ (forall e,
          e ∈ emitted (on_authenticate env_ok "a" (str "tok-u1")) connected ->
          is_emission e = false -> e = WriteUser u1 u')
    /\ (u' <> alice ->
        emitted (on_authenticate env_ok "a" (str "tok-u1")) connected
        = [WriteUser u1 u';
           SocketEmit "a" (authenticated u1 (username alice) (email alice));
           BroadcastEmit "a" (user_online u1 (username alice))])
    /\ (u' = alice ->
        emitted (on_authenticate env_ok "a" (str "tok-u1")) connected
        = [SocketEmit "a" (authenticated u1 (username alice) (email alice));
           BroadcastEmit "a" (user_online u1 (username alice))])
    /\ receives w' "a" (BroadcastEmit "a" (user_online u1 (username alice)))
       = false.
Proof.
  apply (handshake_success env_ok "a" (str "tok-u1") u1 alice connected);
    reflexivity.
Defined.

(** X13: last session wins, and the earlier session is not revoked.  When
    the user already has a registry entry, a second handshake that goes
    through replaces the entry's handle in place (same keys, same order),
    and the socket of the earlier entry, if it is another one, keeps its
    [userId] and its rooms. *)
Theorem second_handshake_replaces_entry env sid token uid u old w :
  jwt_verify env token = JwtDecoded uid ->
  store_fails env (OpFindById uid) = false ->
  Users w !! uid = Some u ->
  store_fails env (OpSaveUser uid) = false ->
  Map_get uid (connectedUsers w) = Some old ->
  let w' := run (on_authenticate env sid token) w in
  Map_keys (connectedUsers w') = Map_keys (connectedUsers w)
  /\ socketId <$> Map_get uid (connectedUsers w') = Some sid
  /\ (socketId old <> sid ->
      sockets w' !! socketId old = sockets w !! socketId old).
Proof.
  intros Hj Hf Hu Hs Hold w'. subst w'.
  rewrite (on_authenticate_success env sid token uid u w Hj Hf Hu Hs).
  cbn [connectedUsers sockets].
  split; [by apply (Map_keys_set_present _ _ old)|].
  split; [by rewrite Map_get_set_eq|].
  intros Hne. by rewrite lookup_insert_ne.
Qed.

Lemma second_handshake_replaces_entry_witness :
  let w := run (handle env_ok (Connection "a2"))
               (run (on_authenticate env_ok "a" (str "tok-u1")) connected) in
  let w' := run (on_authenticate env_ok "a2" (str "tok-u1")) w in
  Map_keys (connectedUsers w') = Map_keys (connectedUsers w)
  /\ socketId <$> Map_get u1 (connectedUsers w') = Some "a2"
  /\ (socketId (mkConn "a" (str "alice")) <> "a2" ->
      sockets w' !! socketId (mkConn "a" (str "alice"))
      = sockets w !! socketId (mkConn "a" (str "alice"))).
Proof.
  intros w.
  apply (second_handshake_replaces_entry env_ok "a2" (str "tok-u1") u1
           (with_presence alice true 1000) (mkConn "a" (str "alice")) w);
    reflexivity.
Defined.

(** X14: handshake then disconnect is a round trip on the registry.  For a
    user without a registry entry, a handshake that goes through followed
    by the disconnect of the same socket, store calls going through, leaves
    the registry exactly as it was, leaves the user stored with
    [isOnline = false] and [lastSeen] the disconnect's clock reading, name,
    mail and password kept, leaves every other user as stored before, and
    after updating the user's document broadcasts [user-offline] to the
    other sockets. *)
Theorem handshake_then_disconnect env env' sid token uid u w :
  jwt_verify env token = JwtDecoded uid ->
  store_fails env (OpFindById uid) = false ->
  Users w !! uid = Some u ->
  store_fails env (OpSaveUser uid) = false ->
  uid <> [] ->
  Map_get uid (connectedUsers w) = None ->
  store_fails env' (OpFindById uid) = false ->
  store_fails env' (OpSaveUser uid) = false ->
  let w1 := run (on_authenticate env sid token) w in
  let w2 := run (on_disconnect env' sid) w1 in
  connectedUsers w2 = connectedUsers w
  /\ exists u1 u2,
       Users w1 !! uid = Some u1 /\ isOnline u1 = true
       /\ Users w2 !! uid = Some u2
       /\ isOnline u2 = false
       /\ lastSeen u2 = Date_now env' 0
       /\ same_identity u u2
       /\ (forall id, id <> uid -> Users w2 !! id = Users w !! id)
       /\ emitted (on_disconnect env' sid) w1
          = [WriteUser uid u2;
             BroadcastEmit sid (user_offline uid (Some (username u)))].
Proof.
  intros Hj Hf Hu Hs Hne Hfresh Hf' Hs' w1 w2. subst w2. unfold emitted.
  pose proof (on_disconnect_cases env' sid w1) as Hd. cbn zeta in Hd.
  assert (Hw1 : w1 = _) by apply (on_authenticate_success env sid token uid u w Hj Hf Hu Hs).
  assert (Hsock : the_socket sid w1
                  = mkSocket (Some uid) (Some (username u))
                      (rooms (the_socket sid w1))).
  { rewrite Hw1. unfold the_socket. cbn [sockets].
    by rewrite lookup_insert_eq. }
  assert (Hid : socket_userId (the_socket sid w1) = Some uid).
  { rewrite Hsock. unfold socket_userId. simpl.
    by rewrite (bool_decide_eq_false_2 _ Hne). }
  rewrite Hid, Hf' in Hd. destruct Hd as (_ & _ & Hd).
  assert (Hu1 : Users w1 !! uid = Some (with_presence u true (Date_now env 0))).
  { rewrite Hw1. cbn [Users]. apply lookup_insert_eq. }
  rewrite Hu1, Hs' in Hd. destruct Hd as (HU & HC & HL).
  rewrite HU, HC, HL. rewrite Hsock. cbn [sock_username].
  rewrite Hu1.
  rewrite Hw1. cbn [Users connectedUsers log].
  split; [by apply Map_delete_set_fresh|].
  exists (with_presence u true (Date_now env 0)),
         (with_presence u false (Date_now env' 0)).
  split; [done|]. split; [done|].
  split; [apply lookup_insert_eq|].
  split; [done|]. split; [done|]. split; [done|].
  split; [intros id Hid'; by rewrite !lookup_insert_ne|].
  rewrite drop_app_length. rewrite with_presence_twice.
  unfold user_write. by rewrite decide_False.
Qed.

Lemma handshake_then_disconnect_witness :
  let w1 := run (on_authenticate env_ok "a" (str "tok-u1")) connected in
  let w2 := run (on_disconnect env_ok "a") w1 in
  connectedUsers w2 = connectedUsers connected
  /\ exists a1 a2,
       Users w1 !! u1 = Some a1 /\ isOnline a1 = true
       /\ Users w2 !! u1 = Some a2
       /\ isOnline a2 = false
       /\ lastSeen a2 = Date_now env_ok 0
       /\ same_identity alice a2
       /\ (forall id, id <> u1 -> Users w2 !! id = Users connected !! id)
       /\ emitted (on_disconnect env_ok "a") w1
          = [WriteUser u1 a2;
             BroadcastEmit "a" (user_offline u1 (Some (username alice)))].
Proof.
  apply (handshake_then_disconnect env_ok env_ok "a" (str "tok-u1") u1 alice
           connected); try reflexivity.
  discriminate.
Defined.

(** X15: when a store call of the disconnect handler fails (the lookup, or
    the save of a user that was found), the handler swallows the error and
    changes nothing at all: the user stays stored as before, the registry
    entry stays, and no [user-offline] is broadcast. *)
Theorem disconnect_store_failure_changes_nothing env sid uid w :
  socket_userId (the_socket sid w) = Some uid ->
  store_fails env (OpFindById uid) = true
  \/ (is_Some (Users w !! uid) /\ store_fails env (OpSaveUser uid) = true) ->
  run (on_disconnect env sid) w = w.
Proof.
  intros Hu Hfail.
  pose proof (on_disconnect_cases env sid w) as Hd. cbn zeta in Hd.
  rewrite Hu in Hd.
  destruct (store_fails env (OpFindById uid)) eqn:Hf; [done|].
  destruct Hfail as [?|[[u Huid] Hs]]; [done|].
  rewrite Huid, Hs in Hd. by destruct Hd as (_ & _ & ?).
Qed.

Lemma disconnect_store_failure_changes_nothing_witness :
  run (on_disconnect env_save_fails "a") both_online = both_online.
Proof.
  apply (disconnect_store_failure_changes_nothing env_save_fails "a" u1).
  - reflexivity.
  - right. split; [|reflexivity]. vm_compute. eauto.
Defined.

End MoreHandshake.

(** ** Login and registration *)

(** How a run of [post_login] ends. *)
Lemma post_login_cases env name pass w :
  (exists status body,
      (400 <= status)%nat
      /\ run (post_login env name pass) w = add_log w [HttpReply status body])
  \/ (exists id u,
         findOne env = Some id /\ Users w !! id = Some u
         /\ bcrypt_compare env pass (password u) = true
         /\ run (post_login env name pass) w
            = mkWorld (<[id := with_presence u true (Date_now env 0)]> (Users w))
                (Messages w) (connectedUsers w) (sockets w)
                (log w ++ user_write id u (with_presence u true (Date_now env 0))
                       ++ [HttpReply 200 "Login successful"])).
Proof.
  unfold run, post_login, try_catch, reply, effect, bind, User_findOne,
    User_save, store_call, throw, set_Users, ret.
  destruct (negb (js_truthy (JStr name)) || negb (js_truthy (JStr pass)));
    simpl; [left; eexists _, _; split; [|reflexivity]; lia|].
  destruct (store_fails env OpFindOne); simpl;
    [left; eexists _, _; split; [|reflexivity]; lia|].
  destruct (findOne env) as [id|]; simpl;
    [|left; eexists _, _; split; [|reflexivity]; lia].
  destruct (Users w !! id) as [u|] eqn:Hu; simpl;
    [|left; eexists _, _; split; [|reflexivity]; lia].
  destruct (bcrypt_compare env pass (password u)) eqn:Hb; simpl;
    [|left; eexists _, _; split; [|reflexivity]; lia].
  destruct (store_fails env (OpSaveUser id)); simpl;
    [left; eexists _, _; split; [|reflexivity]; lia|].
  right. exists id, u. unfold user_write.
  destruct (decide (with_presence u true (Date_now env 0) = u)); simpl;
    repeat split; try done; by rewrite <- ?app_assoc.
Qed.

(** How a run of [post_register] ends. *)
Lemma post_register_cases env name mail pass w :
  (exists status body,
      (400 <= status)%nat
      /\ run (post_register env name mail pass) w
         = add_log w [HttpReply status body])
  \/ (let user := mkUser (trim name) (toLowerCase env (trim mail))
                         (bcrypt_hash env pass) false (Date_now env 0) in
      Users w !! new_ObjectId env = None
      /\ (6 <= length pass)%nat
      /\ (3 <= length (trim name) <= 20)%nat
      /\ run (post_register env name mail pass) w
         = mkWorld (<[new_ObjectId env := user]> (Users w))
             (Messages w) (connectedUsers w) (sockets w)
             (log w ++ [WriteUser (new_ObjectId env) user;
                        HttpReply 201 "Account created successfully"])).
Proof.
  unfold run, post_register, try_catch, reply, effect, bind, User_findOne,
    store_call, throw, get_world, set_Users, ret.
  destruct (negb (js_truthy (JStr name)) || negb (js_truthy (JStr mail))
            || negb (js_truthy (JStr pass)));
    simpl; [left; eexists _, _; split; [|reflexivity]; lia|].
  destruct (length pass <? 6)%nat eqn:Hp; simpl;
    [left; eexists _, _; split; [|reflexivity]; lia|].
  destruct ((length name <? 3)%nat || (20 <? length name)%nat); simpl;
    [left; eexists _, _; split; [|reflexivity]; lia|].
  destruct (store_fails env OpFindOne); simpl;
    [left; eexists _, _; split; [|reflexivity]; lia|].
  destruct (match findOne env with
            | Some id => (fun u => (id, u)) <$> Users w !! id
            | None => None
            end); simpl;
    [left; eexists _, _; split; [|reflexivity]; lia|].
  destruct (length (trim name) <? 3)%nat eqn:H3; simpl;
    [left; eexists _, _; split; [|reflexivity]; lia|].
  destruct (20 <? length (trim name))%nat eqn:H20; simpl;
    [left; eexists _, _; split; [|reflexivity]; lia|].
  destruct (bool_decide (toLowerCase env (trim mail) = [])); simpl;
    [left; eexists _, _; split; [|reflexivity]; lia|].
  destruct (length (bcrypt_hash env pass) <? 6)%nat; simpl;
    [left; eexists _, _; split; [|reflexivity]; lia|].
  destruct (bool_decide (is_Some (Users w !! new_ObjectId env))) eqn:Hn;
    simpl; [left; eexists _, _; split; [|reflexivity]; lia|].
  destruct (store_fails env (OpSaveUser (new_ObjectId env))); simpl;
    [left; eexists _, _; split; [|reflexivity]; lia|].
  right. apply bool_decide_eq_false in Hn.
  apply Nat.ltb_ge in Hp, H3, H20.
  split; [by apply eq_None_not_Some|]. split; [done|]. split; [lia|].
  by rewrite <- !app_assoc.
Qed.

Section Accounts.

Import Sample.



(** X17: the login route tells no socket anything and touches neither the
    registry, the sockets nor the messages.  A run either only sends an
    error reply and leaves the users as they were, or, for the user the
    store matched and whose password compares equal, leaves that one user
    stored with [isOnline = true] and [lastSeen] the clock reading, name,
    mail and password kept, every other user as before, and replies 200
    last; before the reply that user's document is written to the store
    when the save changed it, and nothing is written when the user was
    already stored online with this very clock reading. *)
Theorem login_outcome env name pass w :
  let w' := run (post_login env name pass) w in
  connectedUsers w' = connectedUsers w /\ Messages w' = Messages w
  /\ sockets w' = sockets w
  /\ List.filter is_emission (emitted (post_login env name pass) w) = []
  /\ ((Users w' = Users w
       /\ exists status body,
            (400 <= status)%nat
            /\ emitted (post_login env name pass) w = [HttpReply status body])
      \/ (exists id u u',
            findOne env = Some id /\ Users w !! id = Some u
            /\ bcrypt_compare env pass (password u) = true
            /\ Users w' !! id = Some u'
            /\ isOnline u' = true
            /\ lastSeen u' = Date_now env 0
            /\ same_identity u u'
            /\ (forall id', id' <> id -> Users w' !! id' = Users w !! id')
            /\ last (emitted (post_login env name pass) w)
               = Some (HttpReply 200 "Login successful")
            /\ (forall e, e ∈ emitted (post_login env name pass) w ->
                          e = WriteUser id u'
                          \/ e = HttpReply 200 "Login successful")
            /\ (u' <> u ->
                emitted (post_login env name pass) w
                = [WriteUser id u'; HttpReply 200 "Login successful"])
            /\ (u' = u ->
                emitted (post_login env name pass) w
                = [HttpReply 200 "Login successful"]))).
Proof.
  cbn zeta. unfold emitted.
  destruct (post_login_cases env name pass w)
    as [(st & b & Hst & ->)|(id & u & Hf & Hu & Hb & ->)];
    cbn [add_log Users Messages connectedUsers sockets log];
    rewrite drop_app_length;
    (split; [done|]; split; [done|]; split; [done|]).
  - split; [done|]. left. split; [done|]. by exists st, b.
  - unfold user_write.
    destruct (decide (with_presence u true (Date_now env 0) = u)) as [Hsame|Hmod];
      cbn [app List.filter is_emission].
    all: split; [done|].
    all: right; exists id, u, (with_presence u true (Date_now env 0)).
    all: split; [done|]; split; [done|]; split; [done|].
    all: split; [apply lookup_insert_eq|].
    all: split; [done|]; split; [done|]; split; [done|].
    all: split; [intros id' Hne; by rewrite lookup_insert_ne|].
    all: split; [done|]; split; [|done].
    all: intros e He.
    all: repeat (apply elem_of_cons in He as [->|He]; [by (left + right)|]).
    all: by apply elem_of_nil in He.
Qed.

(** X18: the register route answers 400 and stores nothing, whatever the
    store would have said, when a field is empty, the password has fewer
    than 6 code units, or the user name has fewer than 3 or more than 20. *)
Theorem register_rejects_bad_input env name mail pass w :
  name = [] \/ mail = [] \/ pass = []
  \/ (length pass < 6)%nat \/ (length name < 3)%nat \/ (20 < length name)%nat ->
  exists body,
    run (post_register env name mail pass) w = add_log w [HttpReply 400 body].
Proof.
  intros H.
  unfold run, post_register, try_catch, reply, effect, bind. simpl.
  destruct (bool_decide (name = [])) eqn:Hn; simpl; [by eexists|].
  destruct (bool_decide (mail = [])) eqn:Hm; simpl; [by eexists|].
  destruct (bool_decide (pass = [])) eqn:Hp; simpl; [by eexists|].
  apply bool_decide_eq_false in Hn, Hm, Hp.
  destruct (Nat.ltb_spec (length pass) 6); simpl; [by eexists|].
  destruct (Nat.ltb_spec (length name) 3); simpl; [by eexists|].
  destruct (Nat.ltb_spec 20 (length name)); simpl; [by eexists|].
  exfalso. destruct H as [?|[?|[?|[?|[?|?]]]]]; try done; lia.
Qed.

Lemma register_rejects_bad_input_witness :
  exists body,
    run (post_register env_ok (str "carol") (str "carol@example.org")
           (str "12345")) boot
    = add_log boot [HttpReply 400 body].
Proof.
  apply register_rejects_bad_input.
  right; right; right; left. vm_compute. lia.
Defined.

(** X19: the register route either only sends an error reply, or stores
    exactly one new user under a fresh identifier: the name trimmed, the
    mail trimmed and lowercased, the password as [bcrypt.hash] returned
    it, offline; every user stored before is left as it was, and neither the
    registry, the sockets nor the messages change. *)
Theorem register_outcome env name mail pass w :
  let w' := run (post_register env name mail pass) w in
  connectedUsers w' = connectedUsers w /\ Messages w' = Messages w
  /\ sockets w' = sockets w
  /\ (forall id u, Users w !! id = Some u -> Users w' !! id = Some u)
  /\ ((Users w' = Users w
       /\ exists status body,
            (400 <= status)%nat
            /\ emitted (post_register env name mail pass) w
               = [HttpReply status body])
      \/ (Users w !! new_ObjectId env = None
          /\ Users w' !! new_ObjectId env
             = Some (mkUser (trim name) (toLowerCase env (trim mail))
                            (bcrypt_hash env pass) false (Date_now env 0))
          /\ (forall id, id <> new_ObjectId env ->
                Users w' !! id = Users w !! id)
          /\ exists user,
               emitted (post_register env name mail pass) w
               = [WriteUser (new_ObjectId env) user;
                  HttpReply 201 "Account created successfully"])).
Proof.
  cbn zeta. unfold emitted.
  destruct (post_register_cases env name mail pass w)
    as [(st & b & Hst & ->)|(Hfresh & _ & _ & ->)];
    cbn [add_log Users Messages connectedUsers sockets log];
    (split; [done|]; split; [done|]; split; [done|]).
  - split; [done|]. left. split; [done|]. exists st, b. split; [done|].
    apply drop_app_length.
  - split.
    { intros id u Hu. rewrite lookup_insert_ne; [done|]. congruence. }
    right. split; [done|]. split; [apply lookup_insert_eq|].
    split; [intros id Hne; by rewrite lookup_insert_ne|].
    eexists. apply drop_app_length.
Qed.

End Accounts.

(** ** What no run of the server does *)

Lemma same_identity_refl u : same_identity u u.
Proof. done. Qed.

Lemma same_identity_presence u online seen :
  same_identity u (with_presence u online seen).
Proof. done. Qed.

Lemma same_identity_trans u1 u2 u3 :
  same_identity u1 u2 -> same_identity u2 u3 -> same_identity u1 u3.
Proof. unfold same_identity. intros (? & ? & ?) (? & ? & ?). split_and!; congruence. Qed.

Lemma mark_offline_keeps_identity env k t w id u :
  Users w !! id = Some u ->
  exists u', Users (mark_offline env k t w) !! id = Some u'
             /\ same_identity u u'.
Proof.
  intros Hu. unfold mark_offline.
  destruct (store_fails env (OpUpdateUser k)); [by exists u|].
  destruct (Users w !! k) as [u0|] eqn:Hk; [|by exists u]. simpl.
  destruct (decide (id = k)) as [->|Hne].
  - rewrite lookup_insert_eq. rewrite Hk in Hu. injection Hu as ->.
    eexists. split; [done|]. apply same_identity_presence.
  - rewrite lookup_insert_ne by done. by exists u.
Qed.

Lemma sweep_keeps_identity env entries : forall i w id u,
  Users w !! id = Some u ->
  exists u', Users (run (sweep env i entries) w) !! id = Some u'
             /\ same_identity u u'.
Proof.
  unfold run. induction entries as [|[k c] rest IH]; intros i w id u Hu.
  - by exists u.
  - simpl. unfold bind. rewrite sweep_iteration.
    destruct (mark_offline_keeps_identity env k (Date_now env i) w id u Hu)
      as (u1 & Hu1 & Hid1).
    destruct (IH (S i) _ id u1 Hu1) as (u2 & Hu2 & Hid2).
    exists u2. split; [done|]. by apply (same_identity_trans u u1).
Qed.

(** [on_SIGINT] leaves the world of its loop, up to the trace. *)
Lemma on_SIGINT_world env w :
  let w' := run (on_SIGINT env) w in
  let w1 := run (sweep env 0 (connectedUsers w)) w in
  Users w' = Users w1 /\ Messages w' = Messages w
  /\ connectedUsers w' = connectedUsers w /\ sockets w' = sockets w.
Proof.
  destruct (sweep_spec env (connectedUsers w) 0 w)
    as (l & Hok & Hm & Hc & Hs & _).
  unfold run, on_SIGINT, bind, get_world, store_call, effect, throw in *.
  simpl.
  destruct (sweep env 0 (connectedUsers w) w) as [[[]|e] w1];
    [|discriminate]. simpl in *.
  destruct (store_fails env OpClose); simpl; done.
Qed.

Lemma set_sockets_after {A} (m : M A) f w :
  sockets (run (bind m (fun _ => set_sockets f)) w) = f (sockets (run m w))
  \/ sockets (run (bind m (fun _ => set_sockets f)) w) = sockets (run m w).
Proof. unfold run, bind. destruct (m w) as [[a|e] w1]; simpl; auto. Qed.

(** One transition keeps every stored user, name, mail and password
    included. *)
Lemma handle_keeps_users env i w id u :
  Users w !! id = Some u ->
  exists u', Users (run (handle env i) w) !! id = Some u'
             /\ same_identity u u'.
Proof.
  intros Hu.
  destruct i as [sid|sid token|sid data|sid|n m p|n p|a r c|]; simpl handle.
  - by exists u.
  - destruct (on_authenticate_cases env sid token w)
      as [_ [(_ & -> & _)|(uid & u0 & _ & _ & _ & Hu0 & -> & _)]];
      [by exists u|].
    destruct (decide (id = uid)) as [->|Hne].
    + rewrite lookup_insert_eq. rewrite Hu0 in Hu. injection Hu as ->.
      eexists. split; [done|]. apply same_identity_presence.
    + rewrite lookup_insert_ne by done. by exists u.
  - send_cases env sid data w Heq; rewrite Heq; by exists u.
  - destruct (run_then_set_sockets (on_disconnect env sid)
                (fun ss => delete sid ss) w) as (-> & _).
    pose proof (on_disconnect_cases env sid w) as Hd. cbn zeta in Hd.
    destruct (socket_userId (the_socket sid w)) as [uid|];
      [|rewrite Hd; by exists u].
    destruct (store_fails env (OpFindById uid)); [rewrite Hd; by exists u|].
    destruct Hd as (_ & _ & Hd).
    destruct (Users w !! uid) as [u0|] eqn:Hu0.
    + destruct (store_fails env (OpSaveUser uid));
        [rewrite Hd; by exists u|].
      destruct Hd as (-> & _).
      destruct (decide (id = uid)) as [->|Hne].
      * rewrite lookup_insert_eq. rewrite Hu0 in Hu. injection Hu as ->.
        eexists. split; [done|]. apply same_identity_presence.
      * rewrite lookup_insert_ne by done. by exists u.
    + destruct Hd as (-> & _). by exists u.
  - destruct (post_register_cases env n m p w)
      as [(st & b & _ & ->)|(Hfresh & _ & _ & ->)]; [by exists u|].
    cbn [Users]. rewrite lookup_insert_ne by congruence. by exists u.
  - destruct (post_login_cases env n p w)
      as [(st & b & _ & ->)|(id0 & u0 & _ & Hu0 & _ & ->)]; [by exists u|].
    cbn [Users]. destruct (decide (id = id0)) as [->|Hne].
    + rewrite lookup_insert_eq. rewrite Hu0 in Hu. injection Hu as ->.
      eexists. split; [done|]. apply same_identity_presence.
    + rewrite lookup_insert_ne by done. by exists u.
  - post_cases env a r c w Heq; rewrite Heq; by exists u.
  - destruct (on_SIGINT_world env w) as (-> & _).
    by apply sweep_keeps_identity.
Qed.

(** One transition appends at most one message and changes none. *)
Lemma handle_appends_messages env i w :
  exists l, Messages (run (handle env i) w) = Messages w ++ l
            /\ (length l <= 1)%nat.
Proof.
  assert (Hsame : forall w', Messages w' = Messages w ->
            exists l, Messages w' = Messages w ++ l /\ (length l <= 1)%nat).
  { intros w' ->. exists []. rewrite app_nil_r. simpl. split; [done|lia]. }
  destruct i as [sid|sid token|sid data|sid|n m p|n p|a r c|]; simpl handle.
  - by apply Hsame.
  - apply Hsame. by destruct (on_authenticate_cases env sid token w).
  - send_cases env sid data w Heq; rewrite Heq; [by apply Hsame| |];
      (eexists [_]; split; [reflexivity|simpl; lia]).
  - apply Hsame.
    destruct (run_then_set_sockets (on_disconnect env sid)
                (fun ss => delete sid ss) w) as (_ & -> & _).
    pose proof (on_disconnect_cases env sid w) as Hd. cbn zeta in Hd.
    destruct (socket_userId (the_socket sid w)) as [uid|]; [|by rewrite Hd].
    destruct (store_fails env (OpFindById uid)); [by rewrite Hd|].
    by destruct Hd as (? & _).
  - apply Hsame. by destruct (post_register_cases env n m p w)
      as [(st & b & _ & ->)|(_ & _ & _ & ->)].
  - apply Hsame. by destruct (post_login_cases env n p w)
      as [(st & b & _ & ->)|(id0 & u0 & _ & _ & _ & ->)].
  - post_cases env a r c w Heq; rewrite Heq; [by apply Hsame| |];
      (eexists [_]; split; [reflexivity|simpl; lia]).
  - apply Hsame. by destruct (on_SIGINT_world env w) as (_ & ? & _).
Qed.

Lemma on_authenticate_sockets env sid token w :
  sockets (run (on_authenticate env sid token) w) = sockets w
  \/ exists uid name rs,
       user_room (JStr uid) ∈ rs
       /\ sockets (run (on_authenticate env sid token) w)
          = <[sid := mkSocket (Some uid) (Some name) rs]> (sockets w).
Proof.
  unfold run, on_authenticate, try_catch, bind, jwt_verify_call,
    User_findById, store_call, throw, ret.
  destruct (jwt_verify env token) as [uid|e]; simpl; [|by left].
  destruct (store_fails env (OpFindById uid)); simpl; [by left|].
  destruct (Users w !! uid) as [u|]; simpl; [|by left].
  right. exists uid, (username u).
  exists (if decide (user_room (JStr uid) ∈ rooms (the_socket sid w))
          then rooms (the_socket sid w)
          else rooms (the_socket sid w) ++ [user_room (JStr uid)]).
  split; [case_decide; [done|apply elem_of_app; right; apply list_elem_of_here]|].
  unfold socket_identify, socket_join, update_socket, set_sockets, User_save,
    store_call, bind, throw, set_Users, set_connectedUsers, socket_emit,
    socket_broadcast_emit, effect, the_socket.
  cbn [fst snd Users Messages connectedUsers sockets log].
  destruct (store_fails env (OpSaveUser uid));
    [|unfold ret;
      destruct (decide (with_presence u true (Date_now env 0) = u))];
    cbn [fst snd Users Messages connectedUsers sockets log];
    rewrite !lookup_insert_eq; cbn [default userId sock_username rooms];
    by rewrite insert_insert_eq.
Qed.

Lemma handle_sockets_in_own_room env i w :
  sockets_in_own_room w -> sockets_in_own_room (run (handle env i) w).
Proof.
  intros Hinv.
  assert (Hsame : forall w', sockets w' = sockets w -> sockets_in_own_room w').
  { intros w' Hs sid s uid. rewrite Hs. apply Hinv. }
  destruct i as [sid|sid token|sid data|sid|n m p|n p|a r c|]; simpl handle.
  - intros sid' s uid. unfold run, set_sockets. simpl.
    destruct (decide (sid' = sid)) as [->|Hne].
    + rewrite lookup_insert_eq. by intros [= <-].
    + rewrite lookup_insert_ne by done. apply Hinv.
  - destruct (on_authenticate_sockets env sid token w)
      as [Hs|(uid & name & rs & Hin & Hs)]; [by apply Hsame|].
    intros sid' s uid'. rewrite Hs.
    destruct (decide (sid' = sid)) as [->|Hne].
    + rewrite lookup_insert_eq. intros [= <-]. simpl. by intros [= <-].
    + rewrite lookup_insert_ne by done. apply Hinv.
  - send_cases env sid data w Heq; rewrite Heq; by apply Hsame.
  - assert (Hd : sockets (run (on_disconnect env sid) w) = sockets w).
    { pose proof (on_disconnect_cases env sid w) as Hd. cbn zeta in Hd.
      destruct (socket_userId (the_socket sid w)) as [uid|]; [|by rewrite Hd].
      destruct (store_fails env (OpFindById uid)); [by rewrite Hd|].
      by destruct Hd as (_ & ? & _). }
    destruct (set_sockets_after (on_disconnect env sid)
                (fun ss => delete sid ss) w) as [Hs|Hs];
      [|apply Hsame; congruence].
    intros sid' s uid. rewrite Hs, Hd. rewrite lookup_delete_Some.
    intros [_ H]. by apply (Hinv sid' s uid).
  - apply Hsame. by destruct (post_register_cases env n m p w)
      as [(st & b & _ & ->)|(_ & _ & _ & ->)].
  - apply Hsame. by destruct (post_login_cases env n p w)
      as [(st & b & _ & ->)|(id0 & u0 & _ & _ & _ & ->)].
  - post_cases env a r c w Heq; rewrite Heq; by apply Hsame.
  - apply Hsame. by destruct (on_SIGINT_world env w) as (_ & _ & _ & ?).
Qed.

Lemma handle_registry_keys env i w uid :
  uid ∈ Map_keys (connectedUsers (run (handle env i) w)) ->
  uid ∈ Map_keys (connectedUsers w)
  \/ is_Some (Users (run (handle env i) w) !! uid).
Proof.
  destruct i as [sid|sid token|sid data|sid|n m p|n p|a r c|];
    try (simpl; rewrite post_login_registry; by left).
  all: match goal with
       | |- context [run (handle ?e ?i) ?w] =>
           destruct (handle_presence e i w) as
             [Hc _|uid0 u t entry _ Hu Hc|uid0 Hc _ _]; [simpl; tauto| | |]
       end; rewrite Hc.
  all: try by left.
  all: try (intros Hin; left;
            by apply (Map_keys_delete_subseteq uid0 (connectedUsers w))).
  all: intros Hin; apply Map_keys_set in Hin as [->|Hin]; [right|by left];
    rewrite Hu, lookup_insert_eq; eauto.
Qed.

Lemma reachable_in_own_room allowed w :
  reachable allowed w -> sockets_in_own_room w.
Proof.
  induction 1 as [w (_ & Hs & _)|w env i _ IH _ _].
  - intros sid s uid. rewrite Hs, lookup_empty. discriminate.
  - by apply handle_sockets_in_own_room.
Qed.

Section Runs.

Import Sample.

Ltac reach_from_boot :=
  repeat (apply reachable_step;
          [ | first [exact I | simpl; tauto]
            | split; [reflexivity | vm_compute; first [reflexivity | eauto]] ]);
  apply reachable_initial, boot_initial.

(** X20: no sequence of inputs deletes an account or changes its name,
    mail or password: whatever run the server makes, every stored user is
    still stored afterwards with the same three fields (only [isOnline]
    and [lastSeen] ever change). *)
Theorem accounts_survive_every_run l : forall w id u,
  Users w !! id = Some u ->
  exists u', Users (steps w l) !! id = Some u' /\ same_identity u u'.
Proof.
  unfold steps. induction l as [|[env i] l IH]; intros w id u Hu; simpl.
  - by exists u.
  - destruct (handle_keeps_users env i w id u Hu) as (u1 & Hu1 & Hid1).
    destruct (IH _ id u1 Hu1) as (u2 & Hu2 & Hid2).
    exists u2. split; [done|]. by apply (same_identity_trans u u1).
Qed.

Lemma accounts_survive_every_run_witness :
  exists u',
    Users (steps boot [(env_ok, Connection "a");
                       (env_ok, Authenticate "a" (str "tok-u1"));
                       (env_ok, Login (str "alice") (str "secret"));
                       (env_ok, Disconnect "a");
                       (env_ok, Sigint)]) !! u1 = Some u'
    /\ same_identity alice u'.
Proof.
  apply (accounts_survive_every_run _ boot u1 alice). reflexivity.
Defined.

(** X21: stored messages are append-only: along any run the messages
    stored at the start stay, unchanged and in order, as a prefix of the
    stored ones, and each input adds at most one. *)
Theorem messages_are_append_only l : forall w,
  exists added,
    Messages (steps w l) = Messages w ++ added
    /\ (length added <= length l)%nat.
Proof.
  unfold steps. induction l as [|[env i] l IH]; intros w; simpl.
  - exists []. by rewrite app_nil_r.
  - destruct (handle_appends_messages env i w) as (l1 & H1 & Hl1).
    destruct (IH (run (handle env i) w)) as (l2 & H2 & Hl2).
    exists (l1 ++ l2). rewrite H2, H1, <- app_assoc. split; [done|].
    rewrite length_app. lia.
Qed.

(** X22: in every world the server gets to, a socket that carries a
    [userId] is a member of that user's room, so whatever is emitted to
    the room of its user reaches it. *)
Theorem authenticated_sockets_are_in_their_room allowed w :
  reachable allowed w -> sockets_in_own_room w.
Proof.
  induction 1 as [w (_ & Hs & _)|w env i _ IH _ _].
  - intros sid s uid. rewrite Hs, lookup_empty. discriminate.
  - by apply handle_sockets_in_own_room.
Qed.

Lemma authenticated_sockets_are_in_their_room_witness :
  sockets_in_own_room
    (run (handle env_ok (Authenticate "a" (str "tok-u1")))
         (run (handle env_ok (Connection "a")) boot)).
Proof.
  apply (authenticated_sockets_are_in_their_room (fun _ => True)).
  reach_from_boot.
Defined.

(** X23: in every world the server gets to, every key of the registry is
    the identifier of a stored user. *)
Theorem registered_users_are_stored allowed w :
  reachable allowed w -> registry_in_store w.
Proof.
  induction 1 as [w (Hc & _)|w env i _ IH _ _]; intros uid Hin.
  - rewrite Hc in Hin. by apply elem_of_nil in Hin.
  - apply handle_registry_keys in Hin as [Hin|Hin]; [|done].
    destruct (IH uid Hin) as [u Hu].
    destruct (handle_keeps_users env i w uid u Hu) as (u' & Hu' & _). eauto.
Qed.

Lemma registered_users_are_stored_witness :
  registry_in_store
    (run (handle env_ok (Authenticate "a" (str "tok-u1")))
         (run (handle env_ok (Connection "a")) boot)).
Proof.
  apply (registered_users_are_stored (fun _ => True)).
  reach_from_boot.
Defined.

(** X24: the shutdown handler leaves the registry, the sockets and the
    messages as they are, leaves every user without a registry entry
    untouched and puts nobody online; it reaches [process.exit] when
    closing the store goes through, and when closing throws it does not
    exit. *)
Theorem shutdown_frame env w :
  let w' := run (on_SIGINT env) w in
  connectedUsers w' = connectedUsers w /\ Messages w' = Messages w
  /\ sockets w' = sockets w
  /\ (forall id, id ∉ Map_keys (connectedUsers w) ->
        Users w' !! id = Users w !! id)
  /\ no_new_online w w'
  /\ exited w' = (exited w || negb (store_fails env OpClose)).
Proof.
  cbn zeta.
  destruct (on_SIGINT_world env w) as (HU & HM & HC & HS).
  destruct (sweep_spec env (connectedUsers w) 0 w)
    as (l & Hok & _ & _ & _ & Hl & Hx & Hfr & Hno & _).
  cbn zeta in *.
  split; [done|]. split; [done|]. split; [done|].
  split; [intros id Hid; rewrite HU; by apply Hfr|].
  split; [intros id u' H1 H2; rewrite HU in H1; by apply (Hno id u')|].
  assert (Hl0 : existsb is_exit l = false).
  { clear -Hx. induction Hx as [|e l He _ IH]; [done|]. simpl.
    by rewrite He, IH. }
  unfold exited.
  unfold run, on_SIGINT, bind, get_world, store_call, effect, throw in *.
  simpl.
  destruct (sweep env 0 (connectedUsers w) w) as [[[]|e] w1];
    [|discriminate]. simpl in *.
  destruct (store_fails env OpClose); simpl.
  - rewrite Hl, existsb_app, Hl0. by rewrite !orb_false_r.
  - rewrite Hl, <- !app_assoc, !existsb_app. simpl.
    by rewrite !orb_true_r.
Qed.

(** X6: in every world the server gets to, on a socket that carries a
    [userId], a payload that passes the handler's checks and whose
    [receiverId] converts to a string is delivered when the store calls go
    through: the message is stored and then emitted.  [receive-message]
    goes to the room named after the [receiverId] as the client sent it:
    it reaches every connected socket authenticated as the user that string
    names, and no connected socket outside that room.  [message-sent], with
    the same message, reaches the sending socket and no other. *)
Theorem valid_send_is_delivered allowed env sid uid r c mt rid text w :
  reachable allowed w ->
  socket_userId (the_socket sid w) = Some uid ->
  send_accepted env r c mt rid text ->
  is_Some (js_to_string r) ->
  let w' := run (on_send_message env sid (PFields r c mt)) w in
  let m := stored_message env uid rid text in
  let pm := populated w m in
  Messages w' = Messages w ++ [m]
  /\ emitted (on_send_message env sid (PFields r c mt)) w
     = [WriteMessage m; RoomEmit (user_room r) (receive_message pm);
        SocketEmit sid (message_sent pm)]
  /\ (forall sid' s' to,
        sockets w !! sid' = Some s' ->
        userId s' = Some to ->
        js_to_string r = Some to ->
        receives w' sid' (RoomEmit (user_room r) (receive_message pm)) = true)
  /\ (forall sid' s',
        sockets w !! sid' = Some s' ->
        user_room r ∉ rooms s' ->
        receives w' sid' (RoomEmit (user_room r) (receive_message pm)) = false)
  /\ (forall sid',
        receives w' sid' (SocketEmit sid (message_sent pm)) = true <->
        sid' = sid /\ is_Some (sockets w !! sid)).
Proof.
  intros Hreach Hu Hacc [room Hroom] w' m pm. subst w' m pm.
  pose proof (reachable_in_own_room _ _ Hreach) as Hown.
  pose proof (on_send_message_accepted env sid uid r c mt rid text w Hu Hacc)
    as Heq.
  rewrite Hroom in Heq.
  rewrite (emitted_add_message _ _ _ _ Heq), Heq.
  split; [done|]. split; [done|].
  unfold receives, the_socket. cbn [add_message sockets].
  split; [|split].
  - intros sid' s' to Hs' Hto Hr. rewrite Hs'. cbn [default].
    rewrite bool_decide_eq_true_2 by eauto. simpl.
    apply bool_decide_eq_true.
    replace (user_room r) with (user_room (JStr to))
      by (unfold user_room; simpl; by rewrite Hr).
    by apply (Hown sid' s' to).
  - intros sid' s' Hs' Hout. rewrite Hs'. cbn [default].
    rewrite (bool_decide_eq_false_2 _ Hout). apply andb_false_r.
  - intros sid'. rewrite andb_true_iff, !bool_decide_eq_true.
    split; [intros [H ->]|intros [-> H]]; done.
Qed.

Lemma valid_send_is_delivered_witness :
  let w' := run (on_send_message env_ok "a" hello) both_online in
  let m := stored_message env_ok u1 u2 (str "hello") in
  let pm := populated both_online m in
  Messages w' = Messages both_online ++ [m]
  /\ emitted (on_send_message env_ok "a" hello) both_online
     = [WriteMessage m; RoomEmit (user_room (JStr u2)) (receive_message pm);
        SocketEmit "a" (message_sent pm)]
  /\ (forall sid' s' to,
        sockets both_online !! sid' = Some s' ->
        userId s' = Some to ->
        js_to_string (JStr u2) = Some to ->
        receives w' sid'
          (RoomEmit (user_room (JStr u2)) (receive_message pm)) = true)
  /\ (forall sid' s',
        sockets both_online !! sid' = Some s' ->
        user_room (JStr u2) ∉ rooms s' ->
        receives w' sid'
          (RoomEmit (user_room (JStr u2)) (receive_message pm)) = false)
  /\ (forall sid',
        receives w' sid' (SocketEmit "a" (message_sent pm)) = true <->
        sid' = "a" /\ is_Some (sockets both_online !! "a")).
Proof.
  apply (valid_send_is_delivered (fun _ => True) env_ok "a" u1 (JStr u2)
           (JStr (str "hello")) JUndefined u2 (str "hello") both_online).
  - unfold both_online, steps. cbn [fold_left fst snd]. reach_from_boot.
  - reflexivity.
  - repeat split; try reflexivity; try discriminate.
    + by exists (str "hello").
    + vm_compute. lia.
    + by left.
  - by eexists.
Defined.

End Runs.

(** ** The read-only routes *)

Global Instance created_before_total : Total created_before.
Proof. intros m1 m2. unfold created_before. lia. Qed.

Global Instance created_before_trans : Transitive created_before.
Proof. intros m1 m2 m3. unfold created_before. lia. Qed.

Lemma p_message_populated w (l : list Message) :
  p_message <$> (populated w <$> l) = l.
Proof. induction l as [|m l IH]; [done|]. rewrite !fmap_cons. by f_equal. Qed.

Lemma view_id_user_view (l : list (JsString * User)) :
  view_id <$> (user_view <$> l) = l.*1.
Proof. induction l as [|p l IH]; [done|]. rewrite !fmap_cons. by f_equal. Qed.

Section ReadOnly.

Import Sample.

(** X25: the history route is private to a conversation.  What it
    returns are stored messages, each sent by the caller to the other user
    or by the other user to the caller, each populated with the stored
    names, oldest first, at most 100 of them; and when the conversation
    has at most 100 messages it returns all of them. *)
Theorem history_is_private env find_fails me userId w ms :
  get_messages env find_fails me userId w = RestMessages ms ->
  exists other,
    castObjectId env (JStr userId) = Some other
    /\ (length ms <= 100)%nat
    /\ (forall pm, pm ∈ ms ->
          p_message pm ∈ Messages w
          /\ in_conversation me other (p_message pm)
          /\ pm = populated w (p_message pm))
    /\ StronglySorted created_before (p_message <$> ms)
    /\ ((length (filter (in_conversation me other) (Messages w)) <= 100)%nat ->
        p_message <$> ms ≡ₚ filter (in_conversation me other) (Messages w)).
Proof.
  unfold get_messages.
  destruct (castObjectId env (JStr userId)) as [other|]; [|discriminate].
  destruct find_fails; [discriminate|]. intros [= <-]. exists other.
  set (conv := filter (in_conversation me other) (Messages w)).
  set (sorted := merge_sort created_before conv).
  assert (Hperm : sorted ≡ₚ conv) by apply merge_sort_Permutation.
  split; [done|].
  split; [rewrite length_fmap, length_take; lia|].
  split.
  { intros pm Hpm. apply list_elem_of_fmap in Hpm as (m & -> & Hm).
    apply subseteq_take in Hm. rewrite Hperm in Hm.
    apply list_elem_of_filter in Hm as [Hc Hm]. done. }
  rewrite p_message_populated. split.
  { apply (StronglySorted_app_1_l _ _ (drop 100 sorted)).
    rewrite take_drop. apply StronglySorted_merge_sort; apply _. }
  intros Hlen. rewrite take_ge; [done|]. by rewrite Hperm.
Qed.

Lemma history_is_private_witness :
  let w := run (on_send_message env_ok "a" hello) both_online in
  exists other,
    castObjectId env_ok (JStr u1) = Some other
    /\ (length [populated w (stored_message env_ok u1 u2 (str "hello"))]
        <= 100)%nat
    /\ (forall pm,
          pm ∈ [populated w (stored_message env_ok u1 u2 (str "hello"))] ->
          p_message pm ∈ Messages w
          /\ in_conversation u2 other (p_message pm)
          /\ pm = populated w (p_message pm))
    /\ StronglySorted created_before
         (p_message <$>
          [populated w (stored_message env_ok u1 u2 (str "hello"))])
    /\ ((length (filter (in_conversation u2 other) (Messages w)) <= 100)%nat ->
        p_message <$>
        [populated w (stored_message env_ok u1 u2 (str "hello"))]
        ≡ₚ filter (in_conversation u2 other) (Messages w)).
Proof.
  intros w.
  apply (history_is_private env_ok false u2 u1 w). reflexivity.
Defined.

(** X26: the contact list never contains the caller: what the users
    route returns are at most 50 stored users, each as stored (without the
    password), no user twice, none of them the caller; and when there are
    at most 50 other users all of them are returned. *)
Theorem contacts_exclude_caller find_fails me w vs :
  get_users find_fails me w = RestUsers vs ->
  (length vs <= 50)%nat
  /\ NoDup (view_id <$> vs)
  /\ (forall v, v ∈ vs ->
        view_id v <> me
        /\ exists u, Users w !! view_id v = Some u
                     /\ v = user_view (view_id v, u))
  /\ ((size (Users w) <= 50)%nat ->
      forall id u, Users w !! id = Some u -> id <> me ->
                   user_view (id, u) ∈ vs).
Proof.
  unfold get_users. destruct find_fails; [discriminate|]. intros [= <-].
  set (others := filter (fun p : JsString * User => p.1 <> me)
                        (map_to_list (Users w))).
  split; [rewrite length_take; lia|].
  split.
  { rewrite fmap_take, view_id_user_view.
    apply (sublist_NoDup _ (others.*1)); [|apply sublist_take].
    apply (sublist_NoDup _ ((map_to_list (Users w)).*1));
      [apply NoDup_fst_map_to_list|].
    apply fmap_sublist, sublist_filter. }
  split.
  { intros v Hv. apply subseteq_take in Hv.
    apply list_elem_of_fmap in Hv as ([id u] & -> & Hp).
    apply list_elem_of_filter in Hp as [Hne Hp].
    apply elem_of_map_to_list in Hp. simpl in *. split; [done|]. by exists u. }
  intros Hsize id u Hu Hne.
  rewrite take_ge.
  - apply list_elem_of_fmap. exists (id, u). split; [done|].
    apply list_elem_of_filter. split; [done|]. by apply elem_of_map_to_list.
  - rewrite length_fmap. etrans; [apply length_filter|].
    by rewrite length_map_to_list.
Qed.

Lemma contacts_exclude_caller_witness :
  (length [user_view (u2, bob)] <= 50)%nat
  /\ NoDup (view_id <$> [user_view (u2, bob)])
  /\ (forall v, v ∈ [user_view (u2, bob)] ->
        view_id v <> u1
        /\ exists u, Users boot !! view_id v = Some u
                     /\ v = user_view (view_id v, u))
  /\ ((size (Users boot) <= 50)%nat ->
      forall id u, Users boot !! id = Some u -> id <> u1 ->
                   user_view (id, u) ∈ [user_view (u2, bob)]).
Proof.
  apply (contacts_exclude_caller false u1 boot). reflexivity.
Defined.

End ReadOnly.
